(** * BasicTDL: peer registry, broadcast transport and receiver loop

    A shallow embedding of [TdlMessages.h], [NodeManager.cpp],
    [NetworkManager.cpp] and the receiver loop of [main.cpp], with the
    properties of the design document proved or refuted on it.

    Conventions of the embedding.
    - [uint32_t], [int], [size_t] and [SOCKET] values are integers in [Z];
      the conversions the code performs are written out.
    - A [double] is its IEEE-754 binary64 bit pattern, an integer below
      [2^64]: the code only stores and copies doubles, so their bits are
      all that matters.
    - A [steady_clock::time_point] is its tick count.  Each operation that
      calls [steady_clock::now()] takes the value read as an argument.
    - [std::cout]/[std::cerr] writes are collected in a list of [Output].
    - The mutex makes every [NodeManager] method atomic; a method is a
      function from the state before to the state after. *)

From Stdlib Require Import ZArith List Lia String DecimalString.
From coqutil Require Import Byte Word.LittleEndianList.
From stdpp Require Import gmap sorting.

Open Scope Z_scope.

(** ** Console output *)

Inductive Output : Type :=
| Cout (text : string) (values : list Z)   (* each {} stands for a value *)
| Cerr (text : string) (values : list Z)
| CoutBytes (text : string) (bytes : list byte).

(** A computation that returns a value and appends to the console. *)
Definition Console (A : Type) : Type := (A * list Output)%type.

Global Instance Console_ret : MRet Console := λ A a, (a, []).

Global Instance Console_bind : MBind Console := λ A B k c,
  let '(a, o1) := c in let '(b, o2) := k a in (b, o1 ++ o2).

Definition print (o : Output) : Console unit := (tt, [o]).

(** ** TdlMessages.h *)

Definition POSITION_REPORT_TYPE : Z := 1.
Definition HEARTBEAT_TYPE : Z := 2.
Definition TEXT_MESSAGE_TYPE : Z := 3.

Definition MAX_TEXT_MSG_LENGTH : Z := 64.

(** [messageType] has underlying type [uint32_t] and holds whatever value
    was received, so it is an integer and not a three-valued enumeration. *)
Record MessageHeader : Type := {
  messageType : Z;
  sourceNodeId : Z
}.

Record PositionReport : Type := {
  header : MessageHeader;
  latitude : Z;
  longitude : Z;
  altitude : Z
}.

Record TextMessage : Type := {
  text_header : MessageHeader;
  text : list byte
}.

Record NodeInfo : Type := {
  nodeId : Z;
  lastPosition : PositionReport;
  lastHeardTime : Z
}.

(** [PositionReport()]: type set by the constructor, the rest by the
    default member initialisers. *)
Definition PositionReport_default : PositionReport :=
  {| header := {| messageType := POSITION_REPORT_TYPE; sourceNodeId := 0 |};
     latitude := 0; longitude := 0; altitude := 0 |}.

(** [NodeInfo(id, time)]. *)
Definition NodeInfo_new (id time : Z) : NodeInfo :=
  {| nodeId := id;
     lastPosition :=
       {| header := {| messageType := messageType (header PositionReport_default);
                       sourceNodeId := id |};
          latitude := 0; longitude := 0; altitude := 0 |};
     lastHeardTime := time |}.

(** [NodeInfo::updatePosition]. *)
Definition NodeInfo_updatePosition (report : PositionReport) (n : NodeInfo) : NodeInfo :=
  {| nodeId := nodeId n; lastPosition := report; lastHeardTime := lastHeardTime n |}.

Definition set_lastHeardTime (time : Z) (n : NodeInfo) : NodeInfo :=
  {| nodeId := nodeId n; lastPosition := lastPosition n; lastHeardTime := time |}.

(** The three coordinates of a report, and the all-zero "unknown" value. *)
Definition position (r : PositionReport) : Z * Z * Z :=
  (latitude r, longitude r, altitude r).

Definition unknown_position : Z * Z * Z := (0, 0, 0).

(** *** Object sizes and representations

    [MessageHeader] is two 4-byte fields; [PositionReport] adds three
    8-byte doubles at offsets 8, 16 and 24; [TextMessage] adds 64 chars.
    None of them has padding.  The host is little-endian. *)

Definition sizeof_MessageHeader : Z := 8.
Definition sizeof_PositionReport : Z := 32.
Definition sizeof_HeartbeatMessage : Z := 8.
Definition sizeof_TextMessage : Z := 72.

(** The bytes of an object, as [sendBroadcast(&obj, sizeof(obj))] reads them. *)
Definition MessageHeader_bytes (h : MessageHeader) : list byte :=
  le_split 4 (messageType h) ++ le_split 4 (sourceNodeId h).

Definition PositionReport_bytes (r : PositionReport) : list byte :=
  MessageHeader_bytes (header r) ++
  le_split 8 (latitude r) ++ le_split 8 (longitude r) ++ le_split 8 (altitude r).

(** Reading a field of [n] bytes at offset [off] of a buffer. *)
Definition field (off n : nat) (data : list byte) : Z :=
  le_combine (take n (drop off data)).

(** [reinterpret_cast<const MessageHeader*>(data)] and the [memcpy]s of the
    receiver; the callers check the length first. *)
Definition MessageHeader_of_bytes (data : list byte) : MessageHeader :=
  {| messageType := field 0 4 data; sourceNodeId := field 4 4 data |}.

Definition PositionReport_of_bytes (data : list byte) : PositionReport :=
  {| header := MessageHeader_of_bytes data;
     latitude := field 8 8 data;
     longitude := field 16 8 data;
     altitude := field 24 8 data |}.

Definition TextMessage_of_bytes (data : list byte) : TextMessage :=
  {| text_header := MessageHeader_of_bytes data;
     text := take (Z.to_nat MAX_TEXT_MSG_LENGTH) (drop 8 data) |}.

(** Values that fit their C types. *)
Definition uint32 (z : Z) : Prop := 0 <= z < 2 ^ 32.
Definition bits64 (z : Z) : Prop := 0 <= z < 2 ^ 64.

Definition PositionReport_fits (r : PositionReport) : Prop :=
  uint32 (messageType (header r)) ∧ uint32 (sourceNodeId (header r)) ∧
  bits64 (latitude r) ∧ bits64 (longitude r) ∧ bits64 (altitude r).

(** ** NodeManager *)

(** [steady_clock::period] is [std::nano]: ticks per second. *)
Definition ticks_per_second : Z := 1000000000.

(** [duration_cast<seconds>] of a tick count: division truncating toward zero. *)
Definition duration_cast_seconds (ticks : Z) : Z := Z.quot ticks ticks_per_second.

Record NodeManager : Type := {
  m_selfNodeId : Z;
  m_nodeMap : gmap Z NodeInfo
}.

(** [NodeManager::NodeManager(selfNodeId)]. *)
Definition NodeManager_new (selfNodeId : Z) : NodeManager :=
  {| m_selfNodeId := selfNodeId; m_nodeMap := ∅ |}.

Definition set_nodeMap (m : gmap Z NodeInfo) (nm : NodeManager) : NodeManager :=
  {| m_selfNodeId := m_selfNodeId nm; m_nodeMap := m |}.

Definition getSelfNodeId (nm : NodeManager) : Z := m_selfNodeId nm.

(** Iteration over a [std::map]: the pairs in increasing key order. *)
Definition key_le (p q : Z * NodeInfo) : Prop := p.1 <= q.1.

Global Instance key_le_dec p q : Decision (key_le p q).
Proof. unfold key_le. apply _. Defined.

Definition map_items (m : gmap Z NodeInfo) : list (Z * NodeInfo) :=
  merge_sort key_le (map_to_list m).

(** [NodeManager::updateNodePosition]; [now] is the clock value read. *)
Definition updateNodePosition (report : PositionReport) (now : Z)
    (nm : NodeManager) : Console NodeManager :=
  if decide (sourceNodeId (header report) = m_selfNodeId nm) then mret nm
  else
    match m_nodeMap nm !! sourceNodeId (header report) with
    | None =>
        let newNodeInfo := NodeInfo_new (sourceNodeId (header report)) now in
        let newNodeInfo := NodeInfo_updatePosition report newNodeInfo in
        print (Cout "[NodeMgr] Added new Node ID {} from PositionReport."
                 [sourceNodeId (header report)]);;
        mret (set_nodeMap (<[sourceNodeId (header report) := newNodeInfo]> (m_nodeMap nm)) nm)
    | Some info =>
        let info := NodeInfo_updatePosition report info in
        let info := set_lastHeardTime now info in
        mret (set_nodeMap (<[sourceNodeId (header report) := info]> (m_nodeMap nm)) nm)
    end.

(** [NodeManager::updateLastHeardTime]. *)
Definition updateLastHeardTime (id : Z) (now : Z) (nm : NodeManager) : Console NodeManager :=
  if decide (id = m_selfNodeId nm) then mret nm
  else
    match m_nodeMap nm !! id with
    | Some info =>
        mret (set_nodeMap (<[id := set_lastHeardTime now info]> (m_nodeMap nm)) nm)
    | None =>
        let newNodeInfo := NodeInfo_new id now in
        print (Cout "[NodeMgr] Added new Node ID {} from generic message." [id]);;
        mret (set_nodeMap (<[id := newNodeInfo]> (m_nodeMap nm)) nm)
    end.

(** The first loop of [pruneTimeouts]: the ids to remove, in map order. *)
Definition timed_out (timeoutDuration now : Z) (info : NodeInfo) : bool :=
  bool_decide (timeoutDuration < duration_cast_seconds (now - lastHeardTime info)).

Definition nodesToRemove (timeoutDuration now : Z) (m : gmap Z NodeInfo) : list Z :=
  (filter (λ p, timed_out timeoutDuration now p.2 = true) (map_items m)).*1.

(** The second loop: erase each id and report it. *)
Fixpoint erase_all (ids : list Z) (m : gmap Z NodeInfo) : Console (gmap Z NodeInfo) :=
  match ids with
  | [] => mret m
  | nodeIdToRemove :: rest =>
      print (Cout "[NodeMgr] Timed out Node ID: {}" [nodeIdToRemove]);;
      erase_all rest (delete nodeIdToRemove m)
  end.

(** [NodeManager::pruneTimeouts]; the duration is a number of seconds. *)
Definition pruneTimeouts (timeoutDuration : Z) (now : Z) (nm : NodeManager)
    : Console NodeManager :=
  m ← erase_all (nodesToRemove timeoutDuration now (m_nodeMap nm)) (m_nodeMap nm);
  mret (set_nodeMap m nm).

(** [NodeManager::getNodeList]. *)
Definition getNodeList (nm : NodeManager) : list NodeInfo :=
  (map_items (m_nodeMap nm)).*2.

(** What a touch from another node stores under its id. *)
Definition touched (id now : Z) (old : option NodeInfo) : NodeInfo :=
  match old with
  | Some info => set_lastHeardTime now info
  | None => NodeInfo_new id now
  end.

(** What a position report from another node stores under its id. *)
Definition reported (report : PositionReport) (now : Z) (old : option NodeInfo) : NodeInfo :=
  match old with
  | Some info => set_lastHeardTime now (NodeInfo_updatePosition report info)
  | None => NodeInfo_updatePosition report (NodeInfo_new (sourceNodeId (header report)) now)
  end.


(** *** Sequences of registry calls

    The calls of one run in the order in which they take the mutex, each
    with the clock value it read. *)

Inductive Update : Type :=
| Touch (id : Z) (now : Z)
| UpdatePosition (report : PositionReport) (now : Z).

Inductive Call : Type :=
| Mutate (u : Update)
| Prune (timeoutDuration : Z) (now : Z)
| Snapshot.

Definition update_id (u : Update) : Z :=
  match u with
  | Touch id _ => id
  | UpdatePosition report _ => sourceNodeId (header report)
  end.

Definition update_now (u : Update) : Z :=
  match u with
  | Touch _ now => now
  | UpdatePosition _ now => now
  end.

Definition apply_update (u : Update) (nm : NodeManager) : Console NodeManager :=
  match u with
  | Touch id now => updateLastHeardTime id now nm
  | UpdatePosition report now => updateNodePosition report now nm
  end.

Definition apply_call (c : Call) (nm : NodeManager) : Console NodeManager :=
  match c with
  | Mutate u => apply_update u nm
  | Prune timeoutDuration now => pruneTimeouts timeoutDuration now nm
  | Snapshot => let _ := getNodeList nm in mret nm
  end.

Fixpoint run_calls (calls : list Call) (nm : NodeManager) : Console NodeManager :=
  match calls with
  | [] => mret nm
  | c :: rest => nm' ← apply_call c nm; run_calls rest nm'
  end.

(** The clock values read by the calls that write [lastHeardTime]. *)
Definition update_times (calls : list Call) : list Z :=
  omap (λ c, match c with Mutate u => Some (update_now u) | _ => None end) calls.

(** The most recent call for [id], and the most recent report for [id]. *)
Definition latest_heard (id : Z) (us : list Update) : option Z :=
  update_now <$> last (filter (λ u, update_id u = id) us).

Definition report_for (id : Z) (u : Update) : option PositionReport :=
  match u with
  | UpdatePosition report _ =>
      if decide (sourceNodeId (header report) = id) then Some report else None
  | Touch _ _ => None
  end.

Definition latest_position (id : Z) (us : list Update) : Z * Z * Z :=
  match last (omap (report_for id) us) with
  | Some report => position report
  | None => unknown_position
  end.

Definition increasing_per_peer (us : list Update) : Prop :=
  ∀ id, StronglySorted Z.lt (update_now <$> filter (λ u, update_id u = id) us).

(** ** NetworkManager *)

(** Winsock constants, from the platform headers. *)
Definition SOCKET_ERROR : Z := -1.
Definition INVALID_SOCKET : Z := 2 ^ 64 - 1.
Definition WSAETIMEDOUT : Z := 10060.
Definition WSAECONNRESET : Z := 10054.

Definition RECEIVE_BUFFER_SIZE : Z := 2048.

Record ReceivedPacket : Type := {
  data : list byte;
  senderAddress : Z
}.

Record NetworkManager : Type := {
  m_initialized : bool;
  m_sendSocket : Z;
  m_recvSocket : Z;
  m_broadcastAddr : Z;
  m_port : Z
}.

(** [static_cast<int>] of a [size_t]: reduction to a signed 32-bit value. *)
Definition static_cast_int (z : Z) : Z := (z + 2 ^ 31) mod 2 ^ 32 - 2 ^ 31.

(** What one [sendto] call does: its return value, and the value a
    following [WSAGetLastError()] gives. *)
Record sendto_outcome : Type := {
  sendto_return : Z;
  sendto_lastError : Z
}.

(** What one [recvfrom] call does: its return value, the buffer and sender
    address it leaves, and the value of a following [WSAGetLastError()]. *)
Record recvfrom_outcome : Type := {
  recvfrom_return : Z;
  recvfrom_buffer : list byte;
  recvfrom_from : Z;
  recvfrom_lastError : Z
}.

Definition isInitialized (net : NetworkManager) : bool := m_initialized net.

(** [NetworkManager::sendBroadcast]; [sendto socket data len to] is the
    system call. *)
Definition sendBroadcast (sendto : Z → list byte → Z → Z → sendto_outcome)
    (data : list byte) (size : Z) (net : NetworkManager) : Console bool :=
  if negb (m_initialized net) || bool_decide (m_sendSocket net = INVALID_SOCKET) then
    mret false
  else
    let sent := sendto (m_sendSocket net) data (static_cast_int size) (m_broadcastAddr net) in
    let bytesSent := sendto_return sent in
    if bool_decide (bytesSent = SOCKET_ERROR) then
      print (Cerr "[NetMgr] sendto failed: {}" [sendto_lastError sent]);;
      mret false
    else
      (if bool_decide (bytesSent ≠ static_cast_int size) then
         print (Cerr "[NetMgr] Warning: sendto sent {} bytes, but expected {}"
                  [bytesSent; size])
       else mret tt);;
      mret true.

(** [NetworkManager::receive]; [recvfrom socket len] is the system call on
    a fresh buffer of [len] bytes. *)
Definition receive (recvfrom : Z → Z → recvfrom_outcome) (net : NetworkManager)
    : Console (option ReceivedPacket) :=
  if negb (m_initialized net) || bool_decide (m_recvSocket net = INVALID_SOCKET) then
    mret None
  else
    let received := recvfrom (m_recvSocket net) (static_cast_int RECEIVE_BUFFER_SIZE) in
    let bytesReceived := recvfrom_return received in
    if bool_decide (bytesReceived = SOCKET_ERROR) then
      let error := recvfrom_lastError received in
      if bool_decide (error = WSAETIMEDOUT) then mret None
      else if bool_decide (error = WSAECONNRESET) then
        print (Cerr "[NetMgr] Warning: recvfrom reported WSAECONNRESET." []);;
        mret None
      else
        print (Cerr "[NetMgr] recvfrom failed: {}" [error]);;
        mret None
    else if bool_decide (bytesReceived = 0) then mret None
    else
      let buffer := resize (Z.to_nat bytesReceived) Byte.x00 (recvfrom_buffer received) in
      mret (Some {| data := buffer; senderAddress := recvfrom_from received |}).

(** ** The receiver loop of main.cpp *)

(** A NUL-terminated string read from a buffer. *)
Fixpoint c_str (bytes : list byte) : list byte :=
  match bytes with
  | [] => []
  | b :: rest => if Byte.eqb b Byte.x00 then [] else b :: c_str rest
  end.

Definition packet_size (packet : ReceivedPacket) : Z := Z.of_nat (length (data packet)).

(** The loop body after [netMgr.receive()].  [now1] and [now2] are the clock
    values read by [updateLastHeardTime] and [updateNodePosition]. *)
Definition receiverDispatch (receivedOpt : option ReceivedPacket) (now1 now2 : Z)
    (nodeManager : NodeManager) : Console NodeManager :=
  match receivedOpt with
  | None => mret nodeManager
  | Some packet =>
      if bool_decide (packet_size packet < sizeof_MessageHeader) then
        print (Cerr "[Receiver] Warning: Received packet too small ({} bytes). Discarding."
                 [packet_size packet]);;
        mret nodeManager
      else
        let header := MessageHeader_of_bytes (data packet) in
        if bool_decide (sourceNodeId header = getSelfNodeId nodeManager) then
          mret nodeManager
        else
          nodeManager ← updateLastHeardTime (sourceNodeId header) now1 nodeManager;
          if bool_decide (messageType header = POSITION_REPORT_TYPE) then
            if bool_decide (packet_size packet = sizeof_PositionReport) then
              let receivedReport := PositionReport_of_bytes (data packet) in
              updateNodePosition receivedReport now2 nodeManager
            else mret nodeManager
          else if bool_decide (messageType header = HEARTBEAT_TYPE) then
            if bool_decide (packet_size packet = sizeof_HeartbeatMessage) then
              mret nodeManager
            else mret nodeManager
          else if bool_decide (messageType header = TEXT_MESSAGE_TYPE) then
            if bool_decide (packet_size packet = sizeof_TextMessage) then
              let receivedMsg := TextMessage_of_bytes (data packet) in
              let terminated :=
                <[Z.to_nat (MAX_TEXT_MSG_LENGTH - 1) := Byte.x00]> (text receivedMsg) in
              print (Cout "--- Text Message Received ---" []);;
              print (Cout "  From Node: {} [{}]"
                       [sourceNodeId (text_header receivedMsg); senderAddress packet]);;
              print (CoutBytes "  Message:   " (c_str terminated));;
              print (Cout "-----------------------------" []);;
              mret nodeManager
            else mret nodeManager
          else mret nodeManager
  end.

(** One iteration of the loop: what the system call and the clock give. *)
Record iteration : Type := {
  it_recvfrom : Z → Z → recvfrom_outcome;
  it_now1 : Z;
  it_now2 : Z
}.

Definition receiverIteration (it : iteration) (netMgr : NetworkManager)
    (nodeManager : NodeManager) : Console NodeManager :=
  receivedOpt ← receive (it_recvfrom it) netMgr;
  receiverDispatch receivedOpt (it_now1 it) (it_now2 it) nodeManager.

(** [receiverThreadFunc], for the iterations that run before the shutdown
    flag is seen. *)
Fixpoint receiverLoop (its : list iteration) (netMgr : NetworkManager)
    (nodeManager : NodeManager) : Console NodeManager :=
  match its with
  | [] => mret nodeManager
  | it :: rest =>
      nodeManager ← receiverIteration it netMgr nodeManager;
      receiverLoop rest netMgr nodeManager
  end.

Definition receiverThreadFunc (its : list iteration) (netMgr : NetworkManager)
    (nodeManager : NodeManager) : Console NodeManager :=
  print (Cout "[Receiver] Thread started." []);;
  nodeManager ← receiverLoop its netMgr nodeManager;
  print (Cout "[Receiver] Shutdown signal received. Thread finished." []);;
  mret nodeManager.

(** ** The claims as the specification words them *)

(** The reading of C2: an entry goes when its age in ticks is more than
    [timeoutDuration] seconds. *)
Definition age_exceeds (timeoutDuration now : Z) (info : NodeInfo) : Prop :=
  timeoutDuration * ticks_per_second < now - lastHeardTime info.

Global Instance age_exceeds_dec timeoutDuration now info :
  Decision (age_exceeds timeoutDuration now info).
Proof. unfold age_exceeds. apply _. Defined.

Definition prunes_exactly_the_aged (timeoutDuration now : Z) (nm : NodeManager) : Prop :=
  ∀ id,
    m_nodeMap (pruneTimeouts timeoutDuration now nm).1 !! id =
      match m_nodeMap nm !! id with
      | Some info =>
          if decide (age_exceeds timeoutDuration now info) then None else Some info
      | None => None
      end.

(** The exact size the receiver expects for each recognized type. *)
Definition expected_size (type : Z) : option Z :=
  if decide (type = POSITION_REPORT_TYPE) then Some sizeof_PositionReport
  else if decide (type = HEARTBEAT_TYPE) then Some sizeof_HeartbeatMessage
  else if decide (type = TEXT_MESSAGE_TYPE) then Some sizeof_TextMessage
  else None.

(** A packet from another node, long enough for a header, whose type is
    recognized and whose length is not the one expected for that type. *)
Definition recognized_with_wrong_size (packet : ReceivedPacket) (nm : NodeManager) : Prop :=
  sizeof_MessageHeader <= packet_size packet ∧
  sourceNodeId (MessageHeader_of_bytes (data packet)) ≠ m_selfNodeId nm ∧
  ∃ n, expected_size (messageType (MessageHeader_of_bytes (data packet))) = Some n ∧
       packet_size packet ≠ n.

(** The reading of C1: such a packet leaves the manager as it was. *)
Definition wrong_size_leaves_registry (packet : ReceivedPacket) (now1 now2 : Z)
    (nm : NodeManager) : Prop :=
  recognized_with_wrong_size packet nm →
  (receiverDispatch (Some packet) now1 now2 nm).1 = nm.

(** A heartbeat header from node 7 followed by one stray byte. *)
Definition oversized_heartbeat : ReceivedPacket :=
  {| data := MessageHeader_bytes {| messageType := HEARTBEAT_TYPE; sourceNodeId := 7 |}
             ++ [Byte.x00];
     senderAddress := 0 |}.

(** The report the registry should hold for [id]: the latest one received,
    or the one [NodeInfo(id, time)] builds. *)
Definition latest_report (id : Z) (us : list Update) : PositionReport :=
  default (lastPosition (NodeInfo_new id 0)) (last (omap (report_for id) us)).

(** Every entry is filed under its own [nodeId]. *)
Definition filed_by_id (m : gmap Z NodeInfo) : Prop :=
  ∀ k info, m !! k = Some info → nodeId info = k.

(** [steady_clock] never goes back: the values read by successive calls of
    [updateLastHeardTime] and [updateNodePosition] do not decrease.
    Nothing is asked of the value [pruneTimeouts] reads, which it takes
    before the mutex and may be older than the entries it then sees. *)
Definition steady (calls : list Call) : Prop :=
  StronglySorted Z.le (update_times calls).

(** ** NodeManager::printNodeList *)

(** [x != 0.0] on the bit pattern of a double: false for [+0.0] and [-0.0]
    only (a NaN compares unequal to everything). *)
Definition double_ne_zero (bits : Z) : bool :=
  negb (bool_decide (bits = 0) || bool_decide (bits = 2 ^ 63)).

(** The output statements of the loop body for one node.  A [{}] that
    stands for a double carries its bit pattern. *)
Definition print_node (now : Z) (node : NodeInfo) : Console unit :=
  let elapsedSeconds := duration_cast_seconds (now - lastHeardTime node) in
  print (Cout "  Node ID: {} | Pos (Lat/Lon): " [nodeId node]);;
  (if double_ne_zero (latitude (lastPosition node))
      || double_ne_zero (longitude (lastPosition node))
   then print (Cout "{}/{}" [latitude (lastPosition node); longitude (lastPosition node)])
   else print (Cout "N/A" []));;
  print (Cout " | Last Heard: {}s ago" [elapsedSeconds]).

Fixpoint print_nodes (now : Z) (nodes : list NodeInfo) : Console unit :=
  match nodes with
  | [] => mret tt
  | node :: rest => print_node now node;; print_nodes now rest
  end.

(** [NodeManager::printNodeList]; [now] is read after the list is copied.
    The line break before the heading is left out of its text. *)
Definition printNodeList (now : Z) (nm : NodeManager) : Console unit :=
  let currentNodes := getNodeList nm in
  match currentNodes with
  | [] => mret tt
  | _ :: _ =>
      print (Cout "===== Known Network Nodes ({}) =====" [Z.of_nat (length currentNodes)]);;
      print_nodes now currentNodes;;
      print (Cout "========================================" [])
  end.

(** ** NetworkManager: construction and destruction

    The Winsock calls a constructor or destructor makes are recorded, in
    order, together with its console output. *)

Inductive sockopt : Type := SO_BROADCAST | SO_REUSEADDR | SO_RCVTIMEO.

Inductive SysCall : Type :=
| sys_WSAStartup (result : Z)
| sys_WSACleanup
| sys_socket (result : Z)
| sys_setsockopt (s : Z) (optname : sockopt) (optval : Z)
| sys_inet_pton (result : Z)
| sys_bind (s : Z) (port : Z)
| sys_closesocket (s : Z).

Inductive Effect : Type :=
| Sys (c : SysCall)
| Say (o : Output).

Record Traced (A : Type) : Type := Trace {
  result : A;
  effects : list Effect
}.
Arguments Trace {A} _ _.
Arguments result {A} _.
Arguments effects {A} _.

Global Instance Traced_ret : MRet Traced := λ A a, Trace a [].

Global Instance Traced_bind : MBind Traced := λ A B k c,
  let r := k (result c) in Trace (result r) (effects c ++ effects r).

Definition syscall (c : SysCall) : Traced unit := Trace tt [Sys c].
Definition say (o : Output) : Traced unit := Trace tt [Say o].

(** The places of the constructor that read [WSAGetLastError()]. *)
Inductive init_step : Type :=
| at_send_socket | at_broadcast | at_inet_pton | at_recv_socket | at_rcvtimeo | at_bind.

(** What the system answers to the calls of the constructor. *)
Record winsock : Type := {
  WSAStartup_result : Z;
  send_socket_result : Z;
  setsockopt_broadcast_result : Z;
  inet_pton_result : Z;
  inet_pton_addr : Z;
  recv_socket_result : Z;
  setsockopt_reuseaddr_result : Z;
  setsockopt_rcvtimeo_result : Z;
  bind_result : Z;
  WSAGetLastError : init_step → Z
}.

(** [static_cast<DWORD>] of an [int]. *)
Definition static_cast_DWORD (z : Z) : Z := z mod 2 ^ 32.

Definition set_sendSocket (s : Z) (net : NetworkManager) : NetworkManager :=
  {| m_initialized := m_initialized net; m_sendSocket := s;
     m_recvSocket := m_recvSocket net; m_broadcastAddr := m_broadcastAddr net;
     m_port := m_port net |}.

Definition set_recvSocket (s : Z) (net : NetworkManager) : NetworkManager :=
  {| m_initialized := m_initialized net; m_sendSocket := m_sendSocket net;
     m_recvSocket := s; m_broadcastAddr := m_broadcastAddr net;
     m_port := m_port net |}.

Definition set_broadcastAddr (a : Z) (net : NetworkManager) : NetworkManager :=
  {| m_initialized := m_initialized net; m_sendSocket := m_sendSocket net;
     m_recvSocket := m_recvSocket net; m_broadcastAddr := a;
     m_port := m_port net |}.

Definition set_initialized (b : bool) (net : NetworkManager) : NetworkManager :=
  {| m_initialized := b; m_sendSocket := m_sendSocket net;
     m_recvSocket := m_recvSocket net; m_broadcastAddr := m_broadcastAddr net;
     m_port := m_port net |}.

(** [NetworkManager::NetworkManager(port, broadcastAddress, receiveTimeoutMs)].
    The address string only matters through what [inet_pton] makes of it. *)
Definition NetworkManager_new (sys : winsock) (port : Z) (receiveTimeoutMs : Z)
    : Traced NetworkManager :=
  let net := {| m_initialized := false; m_sendSocket := INVALID_SOCKET;
                m_recvSocket := INVALID_SOCKET; m_broadcastAddr := 0;
                m_port := port |} in
  let iResult := WSAStartup_result sys in
  syscall (sys_WSAStartup iResult);;
  if bool_decide (iResult ≠ 0) then
    say (Cerr "[NetMgr] WSAStartup failed: {}" [iResult]);;
    mret net
  else
    syscall (sys_socket (send_socket_result sys));;
    let net := set_sendSocket (send_socket_result sys) net in
    if bool_decide (m_sendSocket net = INVALID_SOCKET) then
      say (Cerr "[NetMgr] Send socket creation failed: {}"
             [WSAGetLastError sys at_send_socket]);;
      syscall sys_WSACleanup;;
      mret net
    else
      syscall (sys_setsockopt (m_sendSocket net) SO_BROADCAST 1);;
      if bool_decide (setsockopt_broadcast_result sys = SOCKET_ERROR) then
        say (Cerr "[NetMgr] setsockopt(SO_BROADCAST) failed: {}"
               [WSAGetLastError sys at_broadcast]);;
        syscall (sys_closesocket (m_sendSocket net));;
        syscall sys_WSACleanup;;
        mret net
      else
        syscall (sys_inet_pton (inet_pton_result sys));;
        if bool_decide (inet_pton_result sys ≠ 1) then
          say (Cerr "[NetMgr] inet_pton failed for broadcast address: {}"
                 [WSAGetLastError sys at_inet_pton]);;
          syscall (sys_closesocket (m_sendSocket net));;
          syscall sys_WSACleanup;;
          mret net
        else
          let net := set_broadcastAddr (inet_pton_addr sys) net in
          syscall (sys_socket (recv_socket_result sys));;
          let net := set_recvSocket (recv_socket_result sys) net in
          if bool_decide (m_recvSocket net = INVALID_SOCKET) then
            say (Cerr "[NetMgr] Receive socket creation failed: {}"
                   [WSAGetLastError sys at_recv_socket]);;
            syscall (sys_closesocket (m_sendSocket net));;
            syscall sys_WSACleanup;;
            mret net
          else
            syscall (sys_setsockopt (m_recvSocket net) SO_REUSEADDR 1);;
            let timeout := static_cast_DWORD receiveTimeoutMs in
            syscall (sys_setsockopt (m_recvSocket net) SO_RCVTIMEO timeout);;
            (if bool_decide (setsockopt_rcvtimeo_result sys = SOCKET_ERROR) then
               say (Cerr "[NetMgr] setsockopt(SO_RCVTIMEO) failed: {}"
                      [WSAGetLastError sys at_rcvtimeo])
             else mret tt);;
            syscall (sys_bind (m_recvSocket net) (m_port net));;
            if bool_decide (bind_result sys = SOCKET_ERROR) then
              say (Cerr "[NetMgr] Bind failed: {}" [WSAGetLastError sys at_bind]);;
              syscall (sys_closesocket (m_recvSocket net));;
              syscall (sys_closesocket (m_sendSocket net));;
              syscall sys_WSACleanup;;
              mret net
            else
              let net := set_initialized true net in
              say (Cout "[NetMgr] Network Manager Initialized. Port: {}, Broadcast: "
                     [m_port net]);;
              mret net.

(** [NetworkManager::~NetworkManager]. *)
Definition NetworkManager_delete (net : NetworkManager) : Traced unit :=
  say (Cout "[NetMgr] Cleaning up..." []);;
  (if bool_decide (m_sendSocket net ≠ INVALID_SOCKET)
   then syscall (sys_closesocket (m_sendSocket net)) else mret tt);;
  (if bool_decide (m_recvSocket net ≠ INVALID_SOCKET)
   then syscall (sys_closesocket (m_recvSocket net)) else mret tt);;
  (if m_initialized net
   then syscall sys_WSACleanup;; say (Cout "[NetMgr] Winsock Cleaned up." [])
   else mret tt).

(** Reading a trace: how often a socket handle was handed out and closed,
    how often the network stack was started and released. *)
Definition is_open_of (s : Z) (e : Effect) : bool :=
  match e with
  | Sys (sys_socket r) => bool_decide (r = s) && bool_decide (r ≠ INVALID_SOCKET)
  | _ => false
  end.

Definition is_close_of (s : Z) (e : Effect) : bool :=
  match e with
  | Sys (sys_closesocket r) => bool_decide (r = s)
  | _ => false
  end.

Definition is_startup (e : Effect) : bool :=
  match e with
  | Sys (sys_WSAStartup r) => bool_decide (r = 0)
  | _ => false
  end.

Definition is_cleanup (e : Effect) : bool :=
  match e with
  | Sys sys_WSACleanup => true
  | _ => false
  end.

Definition count_effects (p : Effect → bool) (tr : list Effect) : nat :=
  length (filter (λ e, p e = true) tr).

(** ** The sender loop of main.cpp *)

Definition TDL_PORT : Z := 30000.
Definition SEND_INTERVAL_SECONDS : Z := 5.
Definition NODE_TIMEOUT_SECONDS : Z := SEND_INTERVAL_SECONDS * 3.

(** The bytes of a [HeartbeatMessage] and of a [TextMessage]. *)
Definition HeartbeatMessage_bytes (h : MessageHeader) : list byte :=
  MessageHeader_bytes h.

Definition TextMessage_bytes (t : TextMessage) : list byte :=
  MessageHeader_bytes (text_header t) ++ text t.

(** [std::to_string] of an unsigned value: its decimal digits. *)
Definition to_string (n : Z) : string :=
  NilEmpty.string_of_uint (N.to_uint (Z.to_N n)).

Definition greeting (myNodeId : Z) : list byte :=
  list_byte_of_string ("Hello from Node " ++ to_string myNodeId ++ " via NetMgr!").

(** [strncpy_s(dest, size, src, _TRUNCATE)] into a zeroed buffer: at most
    [size - 1] characters, then zeros. *)
Definition strncpy_s_TRUNCATE (size : Z) (src : list byte) : list byte :=
  resize (Z.to_nat size) Byte.x00 (take (Z.to_nat (size - 1)) src).

Definition test_TextMessage (myNodeId : Z) : TextMessage :=
  {| text_header := {| messageType := TEXT_MESSAGE_TYPE; sourceNodeId := myNodeId |};
     text := strncpy_s_TRUNCATE MAX_TEXT_MSG_LENGTH (greeting myNodeId) |}.

Definition myHeartbeat (myNodeId : Z) : MessageHeader :=
  {| messageType := HEARTBEAT_TYPE; sourceNodeId := myNodeId |}.

(** The locals of [senderThreadFunc] that live across iterations. *)
Record sender_state : Type := {
  myPosReport : PositionReport;
  lastPosSendTime : Z;
  sentTestTextMessage : bool
}.

(** What one iteration is given: the clock values read by the loop, by
    [pruneTimeouts] and by [printNodeList], and the [sendto] system call. *)
Record sender_tick : Type := {
  tick_now : Z;
  tick_sendto : Z → list byte → Z → Z → sendto_outcome;
  tick_prune_now : Z;
  tick_print_now : Z
}.

(** The blocks of the loop body.  The coordinates are computed in floating
    point from the node id; [coords] gives their bit patterns. *)

(** "Send Position Report": due when the interval has passed; the time of
    the last send advances only if the send succeeds. *)
Definition sendPositionReport (coords : Z → Z * Z * Z) (tick : sender_tick)
    (netMgr : NetworkManager) (myNodeId : Z) (st : sender_state)
    : Console sender_state :=
  let now := tick_now tick in
  if bool_decide (SEND_INTERVAL_SECONDS * ticks_per_second <= now - lastPosSendTime st)
  then
    let report :=
      {| header := header (myPosReport st);
         latitude := (coords myNodeId).1.1;
         longitude := (coords myNodeId).1.2;
         altitude := (coords myNodeId).2 |} in
    sent ← sendBroadcast (tick_sendto tick) (PositionReport_bytes report)
             sizeof_PositionReport netMgr;
    mret {| myPosReport := report;
            lastPosSendTime := if (sent : bool) then now else lastPosSendTime st;
            sentTestTextMessage := sentTestTextMessage st |}
  else mret st.

(** "Send Heartbeat": every iteration, the outcome is not used. *)
Definition sendHeartbeat (tick : sender_tick) (netMgr : NetworkManager)
    (myNodeId : Z) : Console bool :=
  sendBroadcast (tick_sendto tick) (HeartbeatMessage_bytes (myHeartbeat myNodeId))
    sizeof_HeartbeatMessage netMgr.

(** "Send Test Text Message": until one send has succeeded. *)
Definition sendTestTextMessage (tick : sender_tick) (netMgr : NetworkManager)
    (myNodeId : Z) (st : sender_state) : Console sender_state :=
  if negb (sentTestTextMessage st) then
    sent ← sendBroadcast (tick_sendto tick)
             (TextMessage_bytes (test_TextMessage myNodeId))
             sizeof_TextMessage netMgr;
    if (sent : bool) then
      print (Cout "[Sender] Sent Test TextMessage." []);;
      mret {| myPosReport := myPosReport st;
              lastPosSendTime := lastPosSendTime st;
              sentTestTextMessage := true |}
    else mret st
  else mret st.

(** One iteration of the loop. *)
Definition senderIteration (coords : Z → Z * Z * Z) (tick : sender_tick)
    (netMgr : NetworkManager) (st : sender_state) (nodeManager : NodeManager)
    : Console (sender_state * NodeManager) :=
  let myNodeId := getSelfNodeId nodeManager in
  st ← sendPositionReport coords tick netMgr myNodeId st;
  sendHeartbeat tick netMgr myNodeId;;
  st ← sendTestTextMessage tick netMgr myNodeId st;
  nodeManager ← pruneTimeouts NODE_TIMEOUT_SECONDS (tick_prune_now tick) nodeManager;
  printNodeList (tick_print_now tick) nodeManager;;
  mret (st, nodeManager).

Fixpoint senderLoop (coords : Z → Z * Z * Z) (ticks : list sender_tick)
    (netMgr : NetworkManager) (st : sender_state) (nodeManager : NodeManager)
    : Console (sender_state * NodeManager) :=
  match ticks with
  | [] => mret (st, nodeManager)
  | tick :: rest =>
      '(st, nodeManager) ← senderIteration coords tick netMgr st nodeManager;
      senderLoop coords rest netMgr st nodeManager
  end.

(** [senderThreadFunc], for the iterations that run before the shutdown
    flag is seen; [start] is the clock value read before the loop. *)
Definition senderThreadFunc (coords : Z → Z * Z * Z) (start : Z)
    (ticks : list sender_tick) (netMgr : NetworkManager) (nodeManager : NodeManager)
    : Console NodeManager :=
  let myNodeId := getSelfNodeId nodeManager in
  print (Cout "[Sender] Thread started (Node ID: {})." [myNodeId]);;
  let st := {| myPosReport :=
                 {| header := {| messageType := POSITION_REPORT_TYPE;
                                 sourceNodeId := myNodeId |};
                    latitude := 0; longitude := 0; altitude := 0 |};
               lastPosSendTime := start;
               sentTestTextMessage := false |} in
  '(_, nodeManager) ← senderLoop coords ticks netMgr st nodeManager;
  print (Cout "[Sender] Shutdown signal received. Thread finished." []);;
  mret nodeManager.

(** The line that reports the test message. *)
Definition is_sent_test_line (o : Output) : bool :=
  match o with
  | Cout t [] => String.eqb t "[Sender] Sent Test TextMessage."
  | _ => false
  end.

(** ** The receiver loop as registry calls *)

(** The registry calls one received packet leads to. *)
Definition packet_calls (receivedOpt : option ReceivedPacket) (now1 now2 : Z)
    (self : Z) : list Update :=
  match receivedOpt with
  | None => []
  | Some packet =>
      let header := MessageHeader_of_bytes (data packet) in
      if bool_decide (packet_size packet < sizeof_MessageHeader) then []
      else if bool_decide (sourceNodeId header = self) then []
      else
        Touch (sourceNodeId header) now1 ::
        (if bool_decide (messageType header = POSITION_REPORT_TYPE)
            && bool_decide (packet_size packet = sizeof_PositionReport)
         then [UpdatePosition (PositionReport_of_bytes (data packet)) now2]
         else [])
  end.

Definition iteration_calls (netMgr : NetworkManager) (self : Z) (it : iteration)
    : list Update :=
  packet_calls (receive (it_recvfrom it) netMgr).1 (it_now1 it) (it_now2 it) self.

Definition loop_calls (netMgr : NetworkManager) (self : Z) (its : list iteration)
    : list Update :=
  its ≫= iteration_calls netMgr self.

(** The clock values the iterations of a receiver loop are given. *)
Definition loop_clock (its : list iteration) : list Z :=
  its ≫= λ it, [it_now1 it; it_now2 it].

(** ** Invariants of the registry, as predicates on an entry *)

(** An entry stored under [k] names [k], and so does its stored report. *)
Definition entry_consistent (k : Z) (info : NodeInfo) : Prop :=
  nodeId info = k ∧ sourceNodeId (header (lastPosition info)) = k.

(** The line [pruneTimeouts] prints for a removed id. *)
Definition timed_out_line (id : Z) : Output :=
  Cout "[NodeMgr] Timed out Node ID: {}" [id].

(** How many of the given output lines report the test message. *)
Definition sent_test_lines (os : list Output) : nat :=
  length (filter (λ o, is_sent_test_line o = true) os).

(** How many more times the test message may be reported. *)
Definition test_lines_left (st : sender_state) : nat :=
  if sentTestTextMessage st then 0%nat else 1%nat.

(** * Properties of the registry *)

Section registry_facts.
Implicit Types (nm : NodeManager) (m : gmap Z NodeInfo) (info : NodeInfo).

Lemma updateLastHeardTime_selfNodeId id now nm :
  m_selfNodeId (updateLastHeardTime id now nm).1 = m_selfNodeId nm.
Proof.
  unfold updateLastHeardTime. case_decide; [done |].
  by destruct (m_nodeMap nm !! id).
Qed.

Lemma updateNodePosition_selfNodeId report now nm :
  m_selfNodeId (updateNodePosition report now nm).1 = m_selfNodeId nm.
Proof.
  unfold updateNodePosition. case_decide; [done |].
  by destruct (m_nodeMap nm !! _).
Qed.

Lemma updateLastHeardTime_nodeMap id now nm :
  id ≠ m_selfNodeId nm →
  m_nodeMap (updateLastHeardTime id now nm).1 =
    <[id := touched id now (m_nodeMap nm !! id)]> (m_nodeMap nm).
Proof.
  intros Hne. unfold updateLastHeardTime. rewrite decide_False by done.
  by destruct (m_nodeMap nm !! id).
Qed.

Lemma updateNodePosition_nodeMap report now nm :
  sourceNodeId (header report) ≠ m_selfNodeId nm →
  m_nodeMap (updateNodePosition report now nm).1 =
    <[sourceNodeId (header report) :=
        reported report now (m_nodeMap nm !! sourceNodeId (header report))]> (m_nodeMap nm).
Proof.
  intros Hne. unfold updateNodePosition. rewrite decide_False by done.
  by destruct (m_nodeMap nm !! _).
Qed.

Lemma erase_all_lookup ids m k :
  (erase_all ids m).1 !! k = if decide (k ∈ ids) then None else m !! k.
Proof.
  revert m. induction ids as [| i ids IH]; intros m; simpl.
  - done.
  - destruct (erase_all ids (delete i m)) as [m' o] eqn:E.
    specialize (IH (delete i m)). rewrite E in IH. simpl in *. rewrite IH.
    destruct (decide (k = i)) as [-> | Hki].
    + rewrite lookup_delete_eq.
      rewrite (decide_True (P := i ∈ i :: ids)) by apply list_elem_of_here.
      by case_decide.
    + rewrite lookup_delete_ne by done.
      destruct (decide (k ∈ ids)) as [Hin | Hin].
      * rewrite decide_True; [done | by apply list_elem_of_further].
      * rewrite decide_False; [done |].
        intros [?|?]%elem_of_cons; done.
Qed.

Lemma map_items_Permutation m : map_items m ≡ₚ map_to_list m.
Proof. apply merge_sort_Permutation. Qed.

Lemma elem_of_map_items m k info :
  (k, info) ∈ map_items m ↔ m !! k = Some info.
Proof. by rewrite map_items_Permutation, elem_of_map_to_list. Qed.

Lemma elem_of_nodesToRemove timeoutDuration now m k :
  k ∈ nodesToRemove timeoutDuration now m ↔
  ∃ info, m !! k = Some info ∧ timed_out timeoutDuration now info = true.
Proof.
  unfold nodesToRemove. rewrite list_elem_of_fmap. split.
  - intros [[k' info] [-> [Ht Hin]%list_elem_of_filter]]. simpl in *.
    exists info. split; [by apply elem_of_map_items | done].
  - intros (info & Hm & Ht). exists (k, info). split; [done |].
    apply list_elem_of_filter. split; [done | by apply elem_of_map_items].
Qed.

Lemma pruneTimeouts_selfNodeId timeoutDuration now nm :
  m_selfNodeId (pruneTimeouts timeoutDuration now nm).1 = m_selfNodeId nm.
Proof.
  unfold pruneTimeouts, mbind, Console_bind.
  destruct (erase_all _ _) as [m o]. done.
Qed.

Lemma pruneTimeouts_lookup timeoutDuration now nm k :
  m_nodeMap (pruneTimeouts timeoutDuration now nm).1 !! k =
    match m_nodeMap nm !! k with
    | Some info => if timed_out timeoutDuration now info then None else Some info
    | None => None
    end.
Proof.
  unfold pruneTimeouts, mbind, Console_bind.
  pose proof (erase_all_lookup
    (nodesToRemove timeoutDuration now (m_nodeMap nm)) (m_nodeMap nm) k) as H.
  destruct (erase_all _ _) as [m o]. simpl in *. rewrite H. clear H.
  case_decide as Hin.
  - apply elem_of_nodesToRemove in Hin as (info & -> & ->). done.
  - destruct (m_nodeMap nm !! k) as [info |] eqn:Hk; [| done].
    destruct (timed_out timeoutDuration now info) eqn:Ht; [| done].
    exfalso. apply Hin, elem_of_nodesToRemove. eauto.
Qed.
End registry_facts.

(** * Self-addressed calls *)

(** C4.  A touch or a position update whose id is the local node's own id
    is a no-op: the call returns the manager it was given (no entry
    created, none changed) and prints nothing. *)
Theorem self_id_calls_are_noops (nm : NodeManager) (id : Z)
    (report : PositionReport) (now : Z) :
  id = m_selfNodeId nm →
  sourceNodeId (header report) = id →
  updateLastHeardTime id now nm = (nm, []) ∧
  updateNodePosition report now nm = (nm, []).
Proof.
  intros -> Hsrc. unfold updateLastHeardTime, updateNodePosition.
  rewrite Hsrc. by rewrite !decide_True.
Qed.

Lemma self_id_calls_are_noops_witness :
  let nm := {| m_selfNodeId := 1; m_nodeMap := {[ 7 := NodeInfo_new 7 40 ]} |} in
  let report := {| header := {| messageType := POSITION_REPORT_TYPE; sourceNodeId := 1 |};
                   latitude := 11; longitude := 22; altitude := 33 |} in
  updateLastHeardTime 1 50 nm = (nm, []) ∧ updateNodePosition report 50 nm = (nm, []).
Proof.
  intros nm report. apply (self_id_calls_are_noops nm 1 report 50); reflexivity.
Defined.

(** * Pruning *)

(** C2 fails as stated: an entry last heard 15.5 s ago is older than a
    15 s threshold, but its age is truncated to 15 whole seconds before the
    comparison and the entry stays. *)
Lemma prune_keeps_entry_aged_between_seconds :
  ¬ prunes_exactly_the_aged 15 15500000000
      {| m_selfNodeId := 1; m_nodeMap := {[ 7 := NodeInfo_new 7 0 ]} |}.
Proof.
  intros H. specialize (H 7). rewrite pruneTimeouts_lookup in H. simpl in H.
  rewrite lookup_singleton_eq in H.
  rewrite decide_True in H by (unfold age_exceeds, ticks_per_second; simpl; lia).
  vm_compute in H. discriminate H.
Qed.

(** C2, amended.  [pruneTimeouts] removes exactly the entries whose age,
    truncated toward zero to whole seconds, exceeds the threshold; every
    other entry is kept as it was, and the own id is kept too. *)
Theorem pruneTimeouts_removes_by_whole_seconds (timeoutDuration now : Z)
    (nm : NodeManager) (id : Z) :
  m_selfNodeId (pruneTimeouts timeoutDuration now nm).1 = m_selfNodeId nm ∧
  m_nodeMap (pruneTimeouts timeoutDuration now nm).1 !! id =
    match m_nodeMap nm !! id with
    | Some info =>
        if decide (timeoutDuration < Z.quot (now - lastHeardTime info) ticks_per_second)
        then None else Some info
    | None => None
    end.
Proof.
  split; [apply pruneTimeouts_selfNodeId |].
  rewrite pruneTimeouts_lookup. destruct (m_nodeMap nm !! id) as [info |]; [| done].
  unfold timed_out, duration_cast_seconds.
  by destruct (decide _) as [H | H];
    [rewrite bool_decide_eq_true_2 | rewrite bool_decide_eq_false_2].
Qed.

(** * The receiver loop *)

Lemma Console_bind_ret {A} (c : Console A) : (a ← c; mret a) = c.
Proof.
  destruct c as [a o]. unfold mbind, Console_bind, mret, Console_ret.
  by rewrite app_nil_r.
Qed.

(** C5.  A packet shorter than [sizeof(MessageHeader)] is discarded before
    the header is read and before any [NodeManager] call: the manager the
    iteration returns is the one it was given. *)
Theorem receiver_discards_short_packet (packet : ReceivedPacket) (now1 now2 : Z)
    (nm : NodeManager) :
  packet_size packet < sizeof_MessageHeader →
  (receiverDispatch (Some packet) now1 now2 nm).1 = nm.
Proof.
  intros Hshort. unfold receiverDispatch.
  by rewrite bool_decide_eq_true_2.
Qed.

Lemma receiver_discards_short_packet_witness :
  let packet := {| data := [Byte.x01; Byte.x00; Byte.x00]; senderAddress := 0 |} in
  packet_size packet < sizeof_MessageHeader ∧
  (receiverDispatch (Some packet) 5 6 (NodeManager_new 1)).1 = NodeManager_new 1.
Proof.
  intros packet.
  assert (H : packet_size packet < sizeof_MessageHeader) by reflexivity.
  split; [exact H |].
  exact (receiver_discards_short_packet packet 5 6 (NodeManager_new 1) H).
Defined.

(** C1 fails as stated: a 9-byte heartbeat from node 7 has the wrong size,
    and processing it on an empty registry leaves an entry for node 7. *)
Lemma wrong_size_heartbeat_creates_entry :
  ¬ wrong_size_leaves_registry oversized_heartbeat 100 100 (NodeManager_new 1).
Proof.
  intros H.
  assert (Hpre : recognized_with_wrong_size oversized_heartbeat (NodeManager_new 1)).
  { split; [by vm_compute |]. split; [by vm_compute |].
    exists sizeof_HeartbeatMessage. split; by vm_compute. }
  apply H in Hpre.
  apply (f_equal (λ nm, m_nodeMap nm !! 7)) in Hpre.
  vm_compute in Hpre. discriminate Hpre.
Qed.

(** C1, amended.  For a packet from another node with a full header, a
    recognized type and a size other than the expected one, the iteration
    does what [updateLastHeardTime] of the source id alone does, console
    included: no report is decoded and [updateNodePosition] is not called.
    The entry of the source id gets the time read (a new entry has the
    all-zero position), and every other entry is as before. *)
Theorem wrong_size_packet_only_touches (packet : ReceivedPacket) (now1 now2 : Z)
    (nm : NodeManager) :
  recognized_with_wrong_size packet nm →
  let src := sourceNodeId (MessageHeader_of_bytes (data packet)) in
  receiverDispatch (Some packet) now1 now2 nm = updateLastHeardTime src now1 nm ∧
  m_nodeMap (receiverDispatch (Some packet) now1 now2 nm).1 =
    <[src := touched src now1 (m_nodeMap nm !! src)]> (m_nodeMap nm).
Proof.
  intros (Hlen & Hsrc & n & Hexp & Hsize) src.
  assert (receiverDispatch (Some packet) now1 now2 nm = updateLastHeardTime src now1 nm)
    as ->; [| split; [done | by apply updateLastHeardTime_nodeMap]].
  unfold receiverDispatch. fold src.
  rewrite bool_decide_eq_false_2 by lia.
  rewrite bool_decide_eq_false_2 by done.
  rewrite <- (Console_bind_ret (updateLastHeardTime src now1 nm)) at 2.
  f_equal. unfold expected_size in Hexp.
  repeat case_decide; simplify_eq;
    repeat first
      [ rewrite bool_decide_eq_true_2 by done
      | rewrite bool_decide_eq_false_2 by done ];
    done.
Qed.

Lemma wrong_size_packet_only_touches_witness :
  recognized_with_wrong_size oversized_heartbeat (NodeManager_new 1) ∧
  receiverDispatch (Some oversized_heartbeat) 100 100 (NodeManager_new 1) =
    updateLastHeardTime 7 100 (NodeManager_new 1).
Proof.
  assert (H : recognized_with_wrong_size oversized_heartbeat (NodeManager_new 1)).
  { split; [by vm_compute |]. split; [by vm_compute |].
    exists sizeof_HeartbeatMessage. split; by vm_compute. }
  split; [exact H |].
  exact (proj1 (wrong_size_packet_only_touches oversized_heartbeat 100 100
                  (NodeManager_new 1) H)).
Defined.

(** * The transport *)

(** C7.  When [recvfrom] fails with [WSAETIMEDOUT] (nothing arrived within
    the receive timeout) or with [WSAECONNRESET], [receive] returns the
    empty optional, the same value it returns when there is no packet. *)
Theorem receive_timeout_or_reset_is_no_data
    (recvfrom : Z → Z → recvfrom_outcome) (net : NetworkManager) :
  let received := recvfrom (m_recvSocket net) (static_cast_int RECEIVE_BUFFER_SIZE) in
  recvfrom_return received = SOCKET_ERROR →
  recvfrom_lastError received = WSAETIMEDOUT ∨
  recvfrom_lastError received = WSAECONNRESET →
  (receive recvfrom net).1 = None.
Proof.
  intros received Hret Herr. unfold receive.
  destruct (negb (m_initialized net) || _); [done |].
  fold received. rewrite bool_decide_eq_true_2 by done.
  destruct Herr as [-> | ->]; reflexivity.
Qed.

Lemma receive_timeout_or_reset_is_no_data_witness :
  let net := {| m_initialized := true; m_sendSocket := 3; m_recvSocket := 4;
                m_broadcastAddr := 0; m_port := 30000 |} in
  let timed_out_call := λ _ _ : Z,
    {| recvfrom_return := SOCKET_ERROR; recvfrom_buffer := [];
       recvfrom_from := 0; recvfrom_lastError := WSAETIMEDOUT |} in
  (receive timed_out_call net).1 = None.
Proof.
  intros net timed_out_call.
  apply (receive_timeout_or_reset_is_no_data timed_out_call net).
  - reflexivity.
  - left. reflexivity.
Defined.

(** C9.  [sendBroadcast] always returns a boolean, and it returns [true]
    exactly when the manager is initialized, has a send socket, and
    [sendto] did not return [SOCKET_ERROR]; in every other case, the
    uninitialized transport included, it returns [false]. *)
Theorem sendBroadcast_true_iff_sendto_succeeded
    (sendto : Z → list byte → Z → Z → sendto_outcome)
    (data : list byte) (size : Z) (net : NetworkManager) :
  (sendBroadcast sendto data size net).1 = true ↔
    m_initialized net = true ∧ m_sendSocket net ≠ INVALID_SOCKET ∧
    sendto_return
      (sendto (m_sendSocket net) data (static_cast_int size) (m_broadcastAddr net))
      ≠ SOCKET_ERROR.
Proof.
  unfold sendBroadcast.
  destruct (m_initialized net); simpl.
  - case_bool_decide as Hsock; simpl.
    { split; [done | by intros (_ & ? & _)]. }
    case_bool_decide as Herr; simpl.
    { split; [done | by intros (_ & _ & ?)]. }
    by case_bool_decide.
  - split; [done | by intros (? & _)].
Qed.

(** C10.  When [sendto] reports no error but sends fewer bytes than it was
    asked to, [sendBroadcast] returns [true], and the only trace of the
    short send is one warning on [std::cerr]. *)
Theorem sendBroadcast_partial_send_is_success
    (sendto : Z → list byte → Z → Z → sendto_outcome)
    (data : list byte) (size : Z) (net : NetworkManager) :
  let requested := static_cast_int size in
  let bytesSent := sendto_return
    (sendto (m_sendSocket net) data requested (m_broadcastAddr net)) in
  m_initialized net = true →
  m_sendSocket net ≠ INVALID_SOCKET →
  0 <= bytesSent < requested →
  sendBroadcast sendto data size net =
    (true, [Cerr "[NetMgr] Warning: sendto sent {} bytes, but expected {}"
              [bytesSent; size]]).
Proof.
  intros requested bytesSent Hinit Hsock Hsent. unfold sendBroadcast.
  rewrite Hinit. simpl. rewrite bool_decide_eq_false_2 by done.
  fold requested bytesSent.
  rewrite bool_decide_eq_false_2 by (unfold SOCKET_ERROR; lia).
  rewrite bool_decide_eq_true_2 by lia.
  reflexivity.
Qed.

Lemma sendBroadcast_partial_send_is_success_witness :
  let net := {| m_initialized := true; m_sendSocket := 3; m_recvSocket := 4;
                m_broadcastAddr := 0; m_port := 30000 |} in
  let short_send := λ (_ : Z) (_ : list byte) (_ _ : Z),
    {| sendto_return := 5; sendto_lastError := 0 |} in
  sendBroadcast short_send (le_split 8 0) 8 net =
    (true, [Cerr "[NetMgr] Warning: sendto sent {} bytes, but expected {}" [5; 8]]).
Proof.
  intros net short_send.
  apply (sendBroadcast_partial_send_is_success short_send (le_split 8 0) 8 net).
  - reflexivity.
  - unfold INVALID_SOCKET. simpl. lia.
  - vm_compute. split; [intros H; discriminate H | reflexivity].
Defined.

(** A full send, for comparison: same result, empty console. *)
Lemma sendBroadcast_full_send
    (sendto : Z → list byte → Z → Z → sendto_outcome)
    (data : list byte) (size : Z) (net : NetworkManager) :
  m_initialized net = true →
  m_sendSocket net ≠ INVALID_SOCKET →
  sendto_return
    (sendto (m_sendSocket net) data (static_cast_int size) (m_broadcastAddr net))
    = static_cast_int size →
  static_cast_int size ≠ SOCKET_ERROR →
  sendBroadcast sendto data size net = (true, []).
Proof.
  intros Hinit Hsock Hsent Hne. unfold sendBroadcast.
  rewrite Hinit. simpl. rewrite bool_decide_eq_false_2 by done.
  rewrite Hsent. rewrite bool_decide_eq_false_2 by done.
  by rewrite bool_decide_eq_false_2 by (intros H; by apply H).
Qed.

(** * The wire format of a position report *)

Section wire.
Implicit Types (data pre rest : list byte) (z : Z).

Lemma field_here (n : nat) z rest :
  field 0 n (le_split n z ++ rest) = z mod 2 ^ (Z.of_nat n * 8).
Proof.
  unfold field. rewrite drop_0.
  rewrite take_app_length' by (symmetry; apply length_le_split).
  apply le_combine_split.
Qed.

Lemma field_skip (k off n : nat) pre rest :
  length pre = k → field (k + off) n (pre ++ rest) = field off n rest.
Proof.
  intros <-. unfold field. rewrite <- drop_drop.
  by rewrite drop_app_length.
Qed.

Lemma length_PositionReport_bytes (r : PositionReport) :
  Z.of_nat (length (PositionReport_bytes r)) = sizeof_PositionReport.
Proof.
  unfold PositionReport_bytes, MessageHeader_bytes.
  by rewrite !length_app, !length_le_split.
Qed.

Lemma MessageHeader_of_PositionReport_bytes (r : PositionReport) :
  uint32 (messageType (header r)) → uint32 (sourceNodeId (header r)) →
  MessageHeader_of_bytes (PositionReport_bytes r) = header r.
Proof.
  intros Ht Hs. destruct r as [[ty src] lat lon alt].
  unfold MessageHeader_of_bytes, PositionReport_bytes, MessageHeader_bytes.
  cbn [header messageType sourceNodeId] in *.
  rewrite <- !app_assoc. f_equal.
  - rewrite field_here. apply Z.mod_small, Ht.
  - rewrite (field_skip 4 0 4) by apply length_le_split.
    rewrite field_here. apply Z.mod_small, Hs.
Qed.

(** Copying the bytes of a report back into a report gives the report. *)
Lemma PositionReport_of_bytes_of_report (r : PositionReport) :
  PositionReport_fits r → PositionReport_of_bytes (PositionReport_bytes r) = r.
Proof.
  intros (Ht & Hs & Hlat & Hlon & Halt).
  unfold PositionReport_of_bytes.
  rewrite MessageHeader_of_PositionReport_bytes by done.
  destruct r as [h lat lon alt].
  unfold PositionReport_bytes, MessageHeader_bytes.
  cbn [header latitude longitude altitude] in *.
  rewrite <- !app_assoc. f_equal.
  - rewrite (field_skip 4 4 8) by apply length_le_split.
    rewrite (field_skip 4 0 8) by apply length_le_split.
    rewrite field_here. apply Z.mod_small, Hlat.
  - rewrite (field_skip 4 12 8) by apply length_le_split.
    rewrite (field_skip 4 8 8) by apply length_le_split.
    rewrite (field_skip 8 0 8) by apply length_le_split.
    rewrite field_here. apply Z.mod_small, Hlon.
  - rewrite (field_skip 4 20 8) by apply length_le_split.
    rewrite (field_skip 4 16 8) by apply length_le_split.
    rewrite (field_skip 8 8 8) by apply length_le_split.
    rewrite (field_skip 8 0 8) by apply length_le_split.
    rewrite <- (app_nil_r (le_split 8 alt)).
    rewrite field_here. apply Z.mod_small, Halt.
Qed.
End wire.

Lemma Console_bind_fst {A B} (c : Console A) (k : A → Console B) :
  (a ← c; k a).1 = (k c.1).1.
Proof.
  destruct c as [a o]. unfold mbind, Console_bind. simpl.
  by destruct (k a).
Qed.

Lemma lastPosition_reported (report : PositionReport) (now : Z) (old : option NodeInfo) :
  lastPosition (reported report now old) = report.
Proof. by destruct old. Qed.

(** A well-sized position report from another node: the iteration is a
    touch followed by [updateNodePosition] of the decoded report. *)
Lemma receiverDispatch_position_report (packet : ReceivedPacket) (now1 now2 : Z)
    (nm : NodeManager) :
  packet_size packet = sizeof_PositionReport →
  messageType (MessageHeader_of_bytes (data packet)) = POSITION_REPORT_TYPE →
  sourceNodeId (MessageHeader_of_bytes (data packet)) ≠ m_selfNodeId nm →
  receiverDispatch (Some packet) now1 now2 nm =
    (nm' ← updateLastHeardTime (sourceNodeId (MessageHeader_of_bytes (data packet))) now1 nm;
     updateNodePosition (PositionReport_of_bytes (data packet)) now2 nm').
Proof.
  intros Hsize Htype Hsrc. unfold receiverDispatch.
  rewrite Hsize, Htype.
  rewrite bool_decide_eq_false_2 by (unfold sizeof_PositionReport, sizeof_MessageHeader; lia).
  rewrite bool_decide_eq_false_2 by done.
  by rewrite !bool_decide_eq_true_2 by done.
Qed.

(** C8.  The bytes of a position report, copied back into a report after
    the header-size and exact-size checks of the receiver, give the report
    again; the entry the receiving node then holds for the sender has the
    latitude, longitude and altitude bit patterns that were sent. *)
Theorem position_report_round_trip (r : PositionReport) (from now1 now2 : Z)
    (nm : NodeManager) :
  PositionReport_fits r →
  messageType (header r) = POSITION_REPORT_TYPE →
  sourceNodeId (header r) ≠ m_selfNodeId nm →
  let packet := {| data := PositionReport_bytes r; senderAddress := from |} in
  PositionReport_of_bytes (data packet) = r ∧
  ∃ info,
    m_nodeMap (receiverDispatch (Some packet) now1 now2 nm).1 !! sourceNodeId (header r)
      = Some info ∧
    latitude (lastPosition info) = latitude r ∧
    longitude (lastPosition info) = longitude r ∧
    altitude (lastPosition info) = altitude r.
Proof.
  intros Hfits Htype Hsrc packet.
  assert (Hdec : PositionReport_of_bytes (data packet) = r)
    by apply PositionReport_of_bytes_of_report, Hfits.
  assert (Hhdr : MessageHeader_of_bytes (data packet) = header r).
  { destruct Hfits as (? & ? & _). by apply MessageHeader_of_PositionReport_bytes. }
  split; [exact Hdec |].
  rewrite receiverDispatch_position_report.
  - rewrite Console_bind_fst, Hdec, Hhdr.
    rewrite updateNodePosition_nodeMap
      by by rewrite updateLastHeardTime_selfNodeId.
    rewrite lookup_insert_eq. eexists. split; [done |].
    by rewrite lastPosition_reported.
  - apply length_PositionReport_bytes.
  - by rewrite Hhdr.
  - by rewrite Hhdr.
Qed.

Lemma position_report_round_trip_witness :
  let r := {| header := {| messageType := POSITION_REPORT_TYPE; sourceNodeId := 42 |};
              latitude := 0x4049000000000000;
              longitude := 0xBFF0000000000000;
              altitude := 0x7FF8000000000001 |} in
  let packet := {| data := PositionReport_bytes r; senderAddress := 0 |} in
  PositionReport_of_bytes (data packet) = r ∧
  ∃ info,
    m_nodeMap (receiverDispatch (Some packet) 10 11 (NodeManager_new 1)).1 !! 42
      = Some info ∧
    latitude (lastPosition info) = latitude r ∧
    longitude (lastPosition info) = longitude r ∧
    altitude (lastPosition info) = altitude r.
Proof.
  intros r.
  apply (position_report_round_trip r 0 10 11 (NodeManager_new 1)).
  - vm_compute. repeat split; first [reflexivity | intros H; discriminate H].
  - reflexivity.
  - intros H. discriminate H.
Defined.

(** * Sequences of calls *)

Section runs.
Implicit Types (nm : NodeManager) (us : list Update) (calls : list Call).

Lemma run_calls_app calls1 calls2 nm :
  (run_calls (calls1 ++ calls2) nm).1 = (run_calls calls2 (run_calls calls1 nm).1).1.
Proof.
  revert nm. induction calls1 as [| c calls1 IH]; intros nm; [done |].
  cbn [run_calls app]. by rewrite !Console_bind_fst, IH.
Qed.

Lemma run_calls_snoc calls c nm :
  (run_calls (calls ++ [c]) nm).1 = (apply_call c (run_calls calls nm).1).1.
Proof.
  rewrite run_calls_app. cbn [run_calls]. by rewrite Console_bind_fst.
Qed.

Lemma apply_call_selfNodeId c nm :
  m_selfNodeId (apply_call c nm).1 = m_selfNodeId nm.
Proof.
  destruct c as [[id now | report now] | timeoutDuration now |]; simpl.
  - apply updateLastHeardTime_selfNodeId.
  - apply updateNodePosition_selfNodeId.
  - apply pruneTimeouts_selfNodeId.
  - done.
Qed.

Lemma run_calls_selfNodeId calls nm :
  m_selfNodeId (run_calls calls nm).1 = m_selfNodeId nm.
Proof.
  revert nm. induction calls as [| c calls IH]; intros nm; [done |].
  cbn [run_calls]. by rewrite Console_bind_fst, IH, apply_call_selfNodeId.
Qed.

(** The map after a call from another node, in one equation. *)
Lemma apply_update_nodeMap u nm :
  m_nodeMap (apply_update u nm).1 =
    if decide (update_id u = m_selfNodeId nm) then m_nodeMap nm
    else
      <[update_id u :=
          match u with
          | Touch id now => touched id now (m_nodeMap nm !! id)
          | UpdatePosition report now =>
              reported report now (m_nodeMap nm !! sourceNodeId (header report))
          end]> (m_nodeMap nm).
Proof.
  destruct u as [id now | report now]; simpl; case_decide as Hself.
  - unfold updateLastHeardTime. by rewrite decide_True.
  - by apply updateLastHeardTime_nodeMap.
  - unfold updateNodePosition. by rewrite decide_True.
  - by apply updateNodePosition_nodeMap.
Qed.

Lemma apply_call_filed_by_id c nm :
  filed_by_id (m_nodeMap nm) → filed_by_id (m_nodeMap (apply_call c nm).1).
Proof.
  intros Hwf k info. destruct c as [u | timeoutDuration now |].
  - cbn [apply_call]. rewrite apply_update_nodeMap.
    case_decide; [apply Hwf |].
    rewrite lookup_insert. case_decide as Hk; [| apply Hwf].
    intros [= <-]. subst k.
    destruct u as [id now | report now]; simpl.
    + destruct (m_nodeMap nm !! id) as [old |] eqn:Hold; [| done].
      simpl. by apply Hwf.
    + destruct (m_nodeMap nm !! _) as [old |] eqn:Hold; [| done].
      simpl. by apply Hwf.
  - cbn [apply_call]. rewrite pruneTimeouts_lookup.
    destruct (m_nodeMap nm !! k) as [old |] eqn:Hold; [| done].
    destruct (timed_out _ _ _); [done |]. intros [= <-]. by apply Hwf.
  - apply Hwf.
Qed.

Lemma run_calls_filed_by_id calls nm :
  filed_by_id (m_nodeMap nm) → filed_by_id (m_nodeMap (run_calls calls nm).1).
Proof.
  revert nm. induction calls as [| c calls IH]; intros nm Hwf; [done |].
  cbn [run_calls]. rewrite Console_bind_fst.
  by apply IH, apply_call_filed_by_id.
Qed.

Lemma filed_by_id_empty : filed_by_id ∅.
Proof. intros k info. by rewrite lookup_empty. Qed.
End runs.

(** * The registry after touches and position updates *)

Section latest.
Implicit Types (nm : NodeManager) (us : list Update) (id : Z).

Lemma latest_heard_snoc id us u :
  latest_heard id (us ++ [u]) =
    if decide (update_id u = id) then Some (update_now u) else latest_heard id us.
Proof.
  unfold latest_heard. rewrite filter_app, filter_cons, filter_nil.
  case_decide.
  - by rewrite last_snoc.
  - by rewrite app_nil_r.
Qed.

Lemma latest_report_snoc id us u :
  latest_report id (us ++ [u]) =
    match report_for id u with
    | Some report => report
    | None => latest_report id us
    end.
Proof.
  unfold latest_report. rewrite omap_app. cbn [omap list_omap].
  destruct (report_for id u) as [report |].
  - by rewrite last_snoc.
  - by rewrite app_nil_r.
Qed.

Lemma report_for_other id u : update_id u ≠ id → report_for id u = None.
Proof.
  destruct u as [i now | report now]; [done |]. simpl. intros Hne.
  by rewrite decide_False.
Qed.

Lemma never_heard_no_report id us :
  latest_heard id us = None → latest_report id us = lastPosition (NodeInfo_new id 0).
Proof.
  induction us as [| u us IH] using rev_ind; [done |].
  rewrite latest_heard_snoc, latest_report_snoc.
  case_decide as Hid; [done |].
  intros Hnone. rewrite report_for_other by done. by apply IH.
Qed.

Lemma position_latest_report id us :
  position (latest_report id us) = latest_position id us.
Proof.
  unfold latest_report, latest_position.
  by destruct (last (omap (report_for id) us)).
Qed.

(** The entry held for a peer after a sequence of updates on a fresh
    manager: none if the peer made no call, else its id, its latest
    report and the time of its latest call. *)
Lemma run_updates_lookup self us id :
  id ≠ self →
  m_nodeMap (run_calls (Mutate <$> us) (NodeManager_new self)).1 !! id =
    (λ t, {| nodeId := id; lastPosition := latest_report id us; lastHeardTime := t |})
      <$> latest_heard id us.
Proof.
  intros Hself. induction us as [| u us IH] using rev_ind; [done |].
  rewrite fmap_app. cbn [fmap list_fmap]. rewrite run_calls_snoc.
  cbn [apply_call]. rewrite apply_update_nodeMap, run_calls_selfNodeId.
  cbn [NodeManager_new m_selfNodeId].
  rewrite latest_heard_snoc, latest_report_snoc.
  destruct (decide (update_id u = id)) as [Hid | Hid].
  - rewrite decide_False by congruence.
    rewrite Hid, lookup_insert_eq. cbn [fmap option_fmap option_map]. f_equal.
    destruct u as [i now | report now]; cbn [update_id] in Hid; subst;
      cbn [report_for update_now].
    + rewrite IH.
      destruct (latest_heard _ us) as [t |] eqn:Hheard; [done |].
      by rewrite never_heard_no_report.
    + rewrite decide_True by done. rewrite IH.
      by destruct (latest_heard _ us).
  - rewrite report_for_other by done.
    case_decide; [done |]. by rewrite lookup_insert_ne.
Qed.

(** A manager that files entries by id lists at most one per id. *)
Lemma getNodeList_one_per_id nm id info :
  filed_by_id (m_nodeMap nm) →
  m_nodeMap nm !! id = Some info →
  filter (λ n, nodeId n = id) (getNodeList nm) = [info].
Proof.
  intros Hwf Hid. apply Permutation_singleton_r.
  unfold getNodeList. rewrite map_items_Permutation.
  rewrite <- (insert_delete_id (m_nodeMap nm) id info) by done.
  rewrite map_to_list_insert by apply lookup_delete_eq.
  cbn [fmap list_fmap snd]. rewrite filter_cons_True by by apply Hwf in Hid.
  apply Permutation_skip.
  assert (filter (λ n, nodeId n = id) (map_to_list (delete id (m_nodeMap nm))).*2 = [])
    as ->; [| done].
  apply elem_of_nil_inv.
  intros n [Hn [[k n'] [-> Hin]]%list_elem_of_fmap]%list_elem_of_filter.
  apply elem_of_map_to_list in Hin. simpl in Hn.
  destruct (decide (k = id)) as [-> | Hk].
  - by rewrite lookup_delete_eq in Hin.
  - rewrite lookup_delete_ne in Hin by done. apply Hwf in Hin. congruence.
Qed.
End latest.

(** C3.  After any sequence of touches and position updates on a fresh
    manager, with the times of each peer's calls increasing, the node list
    has exactly one entry for each peer other than the local node that
    made a call: its [lastHeardTime] is the time of that peer's latest
    call and its position is that of the peer's latest report, or all
    zeros if it sent none. *)
Theorem snapshot_reflects_latest_calls (self : Z) (us : list Update) (id : Z) :
  increasing_per_peer us →
  id ≠ self →
  id ∈ update_id <$> us →
  ∃ info,
    filter (λ n, nodeId n = id)
      (getNodeList (run_calls (Mutate <$> us) (NodeManager_new self)).1) = [info] ∧
    latest_heard id us = Some (lastHeardTime info) ∧
    position (lastPosition info) = latest_position id us.
Proof.
  intros _ Hself Hin.
  pose proof (run_updates_lookup self us id Hself) as Hlook.
  destruct (latest_heard id us) as [t |] eqn:Hheard.
  - eexists. split; [| split].
    + apply getNodeList_one_per_id; [| exact Hlook].
      apply run_calls_filed_by_id, filed_by_id_empty.
    + done.
    + apply position_latest_report.
  - exfalso. unfold latest_heard in Hheard.
    apply fmap_None, last_None in Hheard.
    apply list_elem_of_fmap in Hin as (u & -> & Hu).
    eapply (filter_nil_not_elem_of _ _ u); [exact Hheard | done | exact Hu].
Qed.

Lemma snapshot_reflects_latest_calls_witness :
  let report := {| header := {| messageType := POSITION_REPORT_TYPE; sourceNodeId := 42 |};
                   latitude := 0x3FF0000000000000;
                   longitude := 0x4000000000000000;
                   altitude := 0x4008000000000000 |} in
  let us := [UpdatePosition report 0; Touch 42 10] in
  ∃ info,
    filter (λ n, nodeId n = 42)
      (getNodeList (run_calls (Mutate <$> us) (NodeManager_new 1)).1) = [info] ∧
    latest_heard 42 us = Some (lastHeardTime info) ∧
    position (lastPosition info) = latest_position 42 us.
Proof.
  intros report us.
  apply (snapshot_reflects_latest_calls 1 us 42).
  - intros p. unfold us. rewrite !filter_cons, filter_nil.
    repeat case_decide; repeat constructor.
  - lia.
  - simpl. apply list_elem_of_here.
Defined.

(** * Monotonicity of the last-heard time *)

Section monotone.
Implicit Types (nm : NodeManager) (calls : list Call) (id t : Z).

Lemma lastHeardTime_touched id now old : lastHeardTime (touched id now old) = now.
Proof. by destruct old. Qed.

Lemma lastHeardTime_reported report now old :
  lastHeardTime (reported report now old) = now.
Proof. by destruct old. Qed.

Lemma update_times_app calls1 calls2 :
  update_times (calls1 ++ calls2) = update_times calls1 ++ update_times calls2.
Proof. apply omap_app. Qed.

(** What a call leaves under [id]: the entry that was there, or one
    stamped with the time the call read. *)
Lemma apply_call_lookup c nm id info :
  m_nodeMap (apply_call c nm).1 !! id = Some info →
  m_nodeMap nm !! id = Some info ∨
  ∃ u, c = Mutate u ∧ lastHeardTime info = update_now u.
Proof.
  destruct c as [u | timeoutDuration now |]; cbn [apply_call].
  - rewrite apply_update_nodeMap. case_decide; [by left |].
    rewrite lookup_insert. case_decide; [| by left].
    intros [= <-]. right. exists u. split; [done |].
    destruct u; [apply lastHeardTime_touched | apply lastHeardTime_reported].
  - rewrite pruneTimeouts_lookup.
    destruct (m_nodeMap nm !! id) as [old |]; [| done].
    destruct (timed_out _ _ _); [done |]. by left.
  - by left.
Qed.

(** On a manager that started empty, every [lastHeardTime] is a value
    some earlier update read. *)
Lemma lastHeardTime_was_read self calls id info :
  m_nodeMap (run_calls calls (NodeManager_new self)).1 !! id = Some info →
  lastHeardTime info ∈ update_times calls.
Proof.
  revert info. induction calls as [| c calls IH] using rev_ind; intros info.
  - cbn. by rewrite lookup_empty.
  - rewrite run_calls_snoc, update_times_app, elem_of_app.
    intros [Hold | (u & -> & ->)]%apply_call_lookup.
    + left. by apply IH.
    + right. cbn. apply list_elem_of_here.
Qed.

(** A lower bound on the entry for [id] that later reads respect is kept. *)
Lemma lastHeardTime_bound_kept calls nm id t :
  Forall (Z.le t) (update_times calls) →
  (∀ info, m_nodeMap nm !! id = Some info → t <= lastHeardTime info) →
  ∀ info, m_nodeMap (run_calls calls nm).1 !! id = Some info →
          t <= lastHeardTime info.
Proof.
  revert nm. induction calls as [| c calls IH]; intros nm Hlater Hnow; [done |].
  cbn [run_calls]. intros info. rewrite Console_bind_fst.
  apply IH.
  - destruct c; [by apply Forall_cons in Hlater as [_ ?] | done..].
  - intros info' [Hold | (u & -> & ->)]%apply_call_lookup; [by apply Hnow |].
    by apply Forall_cons in Hlater as [? _].
Qed.
End monotone.

(** C6.  Along any sequence of touches, position updates, prunes and
    snapshots on a manager that started empty, with a clock that does not
    go back, the [lastHeardTime] held for an id at one point is at most
    the one held for it at any later point. *)
Theorem lastHeardTime_never_decreases (self : Z) (before after : list Call)
    (id : Z) (info1 info2 : NodeInfo) :
  steady (before ++ after) →
  m_nodeMap (run_calls before (NodeManager_new self)).1 !! id = Some info1 →
  m_nodeMap (run_calls (before ++ after) (NodeManager_new self)).1 !! id = Some info2 →
  lastHeardTime info1 <= lastHeardTime info2.
Proof.
  unfold steady. rewrite update_times_app, run_calls_app.
  intros Hsteady H1 H2.
  apply (lastHeardTime_bound_kept after _ id (lastHeardTime info1)) in H2; [done | |].
  - apply Forall_forall. intros t Ht.
    eapply StronglySorted_app_1_elem_of; [exact Hsteady | | exact Ht].
    by eapply lastHeardTime_was_read.
  - intros info. rewrite H1. by intros [= ->].
Qed.

Lemma lastHeardTime_never_decreases_witness :
  let report := {| header := {| messageType := POSITION_REPORT_TYPE; sourceNodeId := 42 |};
                   latitude := 1; longitude := 2; altitude := 3 |} in
  let before := [Mutate (Touch 42 5); Prune 15 6] in
  let after := [Snapshot; Mutate (UpdatePosition report 9)] in
  lastHeardTime (NodeInfo_new 42 5) <=
  lastHeardTime (set_lastHeardTime 9 (NodeInfo_updatePosition report (NodeInfo_new 42 5))).
Proof.
  intros report before after.
  apply (lastHeardTime_never_decreases 1 before after 42).
  - unfold steady. cbn. repeat constructor. lia.
  - vm_compute. reflexivity.
  - vm_compute. reflexivity.
Defined.


(** * The scenario of the design document

    Times are in ticks: second [n] is [n * ticks_per_second]. *)

Example scenario_update_then_touch :
  let report := {| header := {| messageType := POSITION_REPORT_TYPE; sourceNodeId := 42 |};
                   latitude := 0x3FF0000000000000;
                   longitude := 0x4000000000000000;
                   altitude := 0x4008000000000000 |} in
  let nm1 := (updateNodePosition report 0 (NodeManager_new 1)).1 in
  let nm2 := (updateLastHeardTime 42 (10 * ticks_per_second) nm1).1 in
  let nm3 := (pruneTimeouts 5 (20 * ticks_per_second) nm2).1 in
  getNodeList nm1 = [ {| nodeId := 42; lastPosition := report; lastHeardTime := 0 |} ] ∧
  getNodeList nm2 = [ {| nodeId := 42; lastPosition := report;
                         lastHeardTime := 10 * ticks_per_second |} ] ∧
  getNodeList nm3 = [].
Proof. vm_compute. done. Qed.

Example scenario_self_report_ignored :
  let report := {| header := {| messageType := POSITION_REPORT_TYPE; sourceNodeId := 1 |};
                   latitude := 0x3FF0000000000000;
                   longitude := 0x4000000000000000;
                   altitude := 0x4008000000000000 |} in
  getNodeList (updateNodePosition report 0 (NodeManager_new 1)).1 = [].
Proof. vm_compute. done. Qed.

(** The node list comes out in increasing id order, as [std::map] iterates. *)
Example scenario_node_list_order :
  let nm := (run_calls [Mutate (Touch 9 1); Mutate (Touch 3 2); Mutate (Touch 5 3)]
               (NodeManager_new 1)).1 in
  nodeId <$> getNodeList nm = [3; 5; 9].
Proof. vm_compute. done. Qed.


(** * More on the registry *)

Section registry_invariants.
Implicit Types (nm : NodeManager) (calls : list Call) (m : gmap Z NodeInfo).

Lemma apply_call_no_self c nm :
  m_nodeMap nm !! m_selfNodeId nm = None →
  m_nodeMap (apply_call c nm).1 !! m_selfNodeId nm = None.
Proof.
  intros Hnone. destruct c as [u | timeoutDuration now |]; cbn [apply_call].
  - rewrite apply_update_nodeMap. case_decide; [done |].
    by rewrite lookup_insert_ne.
  - by rewrite pruneTimeouts_lookup, Hnone.
  - done.
Qed.

Lemma run_calls_no_self calls nm :
  m_nodeMap nm !! m_selfNodeId nm = None →
  m_nodeMap (run_calls calls nm).1 !! m_selfNodeId nm = None.
Proof.
  revert nm. induction calls as [| c calls IH]; intros nm Hnone; [done |].
  cbn [run_calls]. rewrite Console_bind_fst.
  rewrite <- (apply_call_selfNodeId c nm). apply IH.
  rewrite apply_call_selfNodeId. by apply apply_call_no_self.
Qed.

Lemma apply_call_consistent c nm :
  map_Forall entry_consistent (m_nodeMap nm) →
  map_Forall entry_consistent (m_nodeMap (apply_call c nm).1).
Proof.
  intros Hall k info. destruct c as [u | timeoutDuration now |]; cbn [apply_call].
  - rewrite apply_update_nodeMap. case_decide; [apply Hall |].
    rewrite lookup_insert. case_decide as Hk; [| apply Hall].
    intros [= <-]. subst k.
    destruct u as [id now | report now]; cbn [update_id].
    + destruct (m_nodeMap nm !! id) as [old |] eqn:Hold; [| done].
      by apply Hall in Hold.
    + destruct (m_nodeMap nm !! _) as [old |] eqn:Hold; [| done].
      apply Hall in Hold as [Hid _]. done.
  - rewrite pruneTimeouts_lookup.
    destruct (m_nodeMap nm !! k) as [old |] eqn:Hold; [| done].
    destruct (timed_out _ _ _); [done |]. intros [= <-]. by apply Hall.
  - apply Hall.
Qed.

Lemma run_calls_consistent calls nm :
  map_Forall entry_consistent (m_nodeMap nm) →
  map_Forall entry_consistent (m_nodeMap (run_calls calls nm).1).
Proof.
  revert nm. induction calls as [| c calls IH]; intros nm Hall; [done |].
  cbn [run_calls]. rewrite Console_bind_fst.
  by apply IH, apply_call_consistent.
Qed.
End registry_invariants.

(** X1.  Whatever calls are made on a manager, in whatever order, its map
    never gets an entry under the local node's own id. *)
Theorem registry_never_holds_own_id (self : Z) (calls : list Call) :
  m_nodeMap (run_calls calls (NodeManager_new self)).1 !! self = None.
Proof.
  apply (run_calls_no_self calls (NodeManager_new self)). apply lookup_empty.
Qed.

(** X2.  After any sequence of calls every entry is stored under its own
    [nodeId], and the report kept in it carries that id as its source. *)
Theorem registry_entries_name_their_key (self : Z) (calls : list Call) :
  map_Forall entry_consistent (m_nodeMap (run_calls calls (NodeManager_new self)).1).
Proof.
  apply run_calls_consistent. apply map_Forall_empty.
Qed.

(** X3.  A touch changes no stored position and no [nodeId]: every entry
    that was there is still there with the same report, and entries of
    other ids are untouched altogether. *)
Theorem touch_keeps_positions (id now : Z) (nm : NodeManager) (k : Z) (info : NodeInfo) :
  m_nodeMap nm !! k = Some info →
  ∃ info',
    m_nodeMap (updateLastHeardTime id now nm).1 !! k = Some info' ∧
    lastPosition info' = lastPosition info ∧
    nodeId info' = nodeId info ∧
    (k ≠ id → info' = info).
Proof.
  intros Hk. destruct (decide (id = m_selfNodeId nm)) as [Hself | Hself].
  - unfold updateLastHeardTime. rewrite decide_True by done.
    by exists info.
  - rewrite updateLastHeardTime_nodeMap by done.
    destruct (decide (k = id)) as [-> | Hne].
    + rewrite lookup_insert_eq, Hk. eexists. by split.
    + rewrite lookup_insert_ne by done. by exists info.
Qed.

Lemma touch_keeps_positions_witness :
  let nm := {| m_selfNodeId := 1; m_nodeMap := {[ 7 := NodeInfo_new 7 40 ]} |} in
  ∃ info',
    m_nodeMap (updateLastHeardTime 7 50 nm).1 !! 7 = Some info' ∧
    lastPosition info' = lastPosition (NodeInfo_new 7 40) ∧
    nodeId info' = nodeId (NodeInfo_new 7 40) ∧
    (7 ≠ 7 → info' = NodeInfo_new 7 40).
Proof.
  intros nm. apply (touch_keeps_positions 7 50 nm 7 (NodeInfo_new 7 40)).
  reflexivity.
Defined.

(** X4.  A position report from another node is what a lookup of its
    source id then gives, stamped with the time of the call; no other
    entry changes. *)
Theorem report_is_stored_under_its_source (report : PositionReport) (now : Z)
    (nm : NodeManager) :
  sourceNodeId (header report) ≠ m_selfNodeId nm →
  (∃ info,
     m_nodeMap (updateNodePosition report now nm).1 !! sourceNodeId (header report)
       = Some info ∧
     lastPosition info = report ∧ lastHeardTime info = now) ∧
  ∀ k, k ≠ sourceNodeId (header report) →
       m_nodeMap (updateNodePosition report now nm).1 !! k = m_nodeMap nm !! k.
Proof.
  intros Hself. rewrite updateNodePosition_nodeMap by done. split.
  - rewrite lookup_insert_eq. eexists. split; [done |].
    by destruct (m_nodeMap nm !! _).
  - intros k Hk. by rewrite lookup_insert_ne.
Qed.

Lemma report_is_stored_under_its_source_witness :
  let report := {| header := {| messageType := POSITION_REPORT_TYPE; sourceNodeId := 42 |};
                   latitude := 11; longitude := 22; altitude := 33 |} in
  let nm := {| m_selfNodeId := 1; m_nodeMap := {[ 7 := NodeInfo_new 7 40 ]} |} in
  (∃ info,
     m_nodeMap (updateNodePosition report 50 nm).1 !! 42 = Some info ∧
     lastPosition info = report ∧ lastHeardTime info = 50) ∧
  ∀ k, k ≠ 42 → m_nodeMap (updateNodePosition report 50 nm).1 !! k = m_nodeMap nm !! k.
Proof.
  intros report nm. apply (report_is_stored_under_its_source report 50 nm).
  intros H. discriminate H.
Defined.

Section node_list.
Implicit Types (nm : NodeManager) (m : gmap Z NodeInfo) (l : list Z).

Lemma key_le_total : Total key_le.
Proof. intros p q. unfold key_le. lia. Qed.

Lemma key_le_trans : Transitive key_le.
Proof. intros p q r. unfold key_le. lia. Qed.

Lemma StronglySorted_le_NoDup_lt l :
  StronglySorted Z.le l → NoDup l → StronglySorted Z.lt l.
Proof.
  induction 1 as [| x l Hsorted IH Hall]; intros Hnodup; [constructor |].
  apply NoDup_cons in Hnodup as [Hx Hnodup]. constructor; [by apply IH |].
  apply Forall_forall. intros y Hy.
  assert (x <= y) by (eapply Forall_forall in Hall; done).
  assert (x ≠ y) by (by intros ->). lia.
Qed.

Lemma StronglySorted_filter {A} (R : relation A) (P : A → Prop)
    `{!∀ x, Decision (P x)} (xs : list A) :
  StronglySorted R xs → StronglySorted R (filter P xs).
Proof.
  induction 1 as [| x xs Hsorted IH Hall]; [constructor |].
  rewrite filter_cons. case_decide; [| done].
  constructor; [done |].
  apply Forall_forall. intros y [_ Hy]%list_elem_of_filter.
  by eapply Forall_forall in Hall.
Qed.

Lemma map_items_sorted m : StronglySorted key_le (map_items m).
Proof.
  apply (@StronglySorted_merge_sort _ key_le _ key_le_trans key_le_total).
Qed.

Lemma map_items_keys_increasing m : StronglySorted Z.lt (map_items m).*1.
Proof.
  apply StronglySorted_le_NoDup_lt.
  - apply (StronglySorted_fmap fst key_le Z.le); [| apply map_items_sorted].
    by intros p q.
  - rewrite map_items_Permutation. apply NoDup_fst_map_to_list.
Qed.

Lemma getNodeList_ids nm :
  filed_by_id (m_nodeMap nm) → nodeId <$> getNodeList nm = (map_items (m_nodeMap nm)).*1.
Proof.
  intros Hwf. unfold getNodeList. rewrite <- list_fmap_compose.
  apply list_fmap_ext. intros i [k info] Hin. cbn.
  apply Hwf. apply elem_of_map_items. by eapply list_elem_of_lookup_2.
Qed.

Lemma erase_all_output ids m : (erase_all ids m).2 = timed_out_line <$> ids.
Proof.
  revert m. induction ids as [| i ids IH]; intros m; [done |].
  cbn [erase_all]. specialize (IH (delete i m)).
  unfold mbind, Console_bind, print.
  destruct (erase_all ids (delete i m)) as [m' o]. cbn in *. by rewrite IH.
Qed.

Lemma nodesToRemove_increasing timeoutDuration now m :
  StronglySorted Z.lt (nodesToRemove timeoutDuration now m).
Proof.
  unfold nodesToRemove.
  apply (StronglySorted_fmap fst (λ p q : Z * NodeInfo, p.1 < q.1) Z.lt); [by intros p q |].
  apply StronglySorted_filter.
  pose proof (map_items_keys_increasing m) as Hkeys.
  induction (map_items m) as [| p items IH]; [constructor |].
  cbn in Hkeys. apply StronglySorted_inv in Hkeys as [Hrest Hall].
  constructor; [by apply IH |].
  apply Forall_forall. intros q Hq.
  eapply Forall_forall in Hall; [exact Hall |].
  apply list_elem_of_fmap. by exists q.
Qed.

(** Truncated division by the tick rate against a whole number of seconds. *)
Lemma timed_out_iff timeoutDuration now info :
  0 <= timeoutDuration →
  timed_out timeoutDuration now info = true ↔
  (timeoutDuration + 1) * ticks_per_second <= now - lastHeardTime info.
Proof.
  intros HT. unfold timed_out, duration_cast_seconds.
  rewrite bool_decide_eq_true.
  set (a := now - lastHeardTime info).
  assert (0 < ticks_per_second) as Hpos by reflexivity.
  destruct (Z.le_gt_cases 0 a) as [Ha | Ha].
  - rewrite Z.quot_div_nonneg by done. split; intros H.
    + assert (timeoutDuration + 1 <= a / ticks_per_second) as H' by lia.
      pose proof (Z.mul_div_le a ticks_per_second Hpos). nia.
    + assert (timeoutDuration + 1 <= a / ticks_per_second)
        by (apply Z.div_le_lower_bound; lia).
      lia.
  - pose proof (Z.quot_rem' a ticks_per_second) as Hqr.
    pose proof (Z.rem_nonpos a ticks_per_second) as Hr.
    pose proof (Z.rem_bound_abs a ticks_per_second) as Hb.
    split; intros H; [| nia].
    assert (0 < a ÷ ticks_per_second) as Hq by lia.
    assert (Z.rem a ticks_per_second <= 0) by (apply Hr; lia).
    nia.
Qed.
End node_list.

(** X5.  The node list of a manager is in strictly increasing id order, the
    order in which [std::map] is iterated; in particular no id occurs in
    it twice. *)
Theorem node_list_is_in_increasing_id_order (self : Z) (calls : list Call) :
  StronglySorted Z.lt (nodeId <$> getNodeList (run_calls calls (NodeManager_new self)).1).
Proof.
  rewrite getNodeList_ids.
  - apply map_items_keys_increasing.
  - apply run_calls_filed_by_id, filed_by_id_empty.
Qed.

(** X6.  [getNodeList] copies the map: an entry is in the list exactly when
    it is stored under some id, and the list is as long as the map is
    large. *)
Theorem node_list_is_the_map (nm : NodeManager) (info : NodeInfo) :
  (info ∈ getNodeList nm ↔ ∃ k, m_nodeMap nm !! k = Some info) ∧
  length (getNodeList nm) = size (m_nodeMap nm).
Proof.
  unfold getNodeList. split.
  - rewrite list_elem_of_fmap. split.
    + intros [[k info'] [-> Hin]]. exists k. by apply elem_of_map_items.
    + intros [k Hk]. exists (k, info). split; [done | by apply elem_of_map_items].
  - rewrite length_fmap, map_items_Permutation. apply length_map_to_list.
Qed.

(** X7.  With a non-negative timeout of [T] seconds, an entry is pruned
    exactly when at least [T + 1] full seconds of ticks have passed since
    it was last heard. *)
Theorem prune_removes_from_the_next_full_second (timeoutDuration now : Z)
    (nm : NodeManager) (id : Z) (info : NodeInfo) :
  0 <= timeoutDuration →
  m_nodeMap nm !! id = Some info →
  m_nodeMap (pruneTimeouts timeoutDuration now nm).1 !! id = None ↔
  (timeoutDuration + 1) * ticks_per_second <= now - lastHeardTime info.
Proof.
  intros HT Hid. rewrite pruneTimeouts_lookup, Hid.
  rewrite <- timed_out_iff by done.
  by destruct (timed_out timeoutDuration now info).
Qed.

Lemma prune_removes_from_the_next_full_second_witness :
  let nm := {| m_selfNodeId := 1; m_nodeMap := {[ 7 := NodeInfo_new 7 0 ]} |} in
  m_nodeMap (pruneTimeouts 15 16000000000 nm).1 !! 7 = None ↔
  (15 + 1) * ticks_per_second <= 16000000000 - lastHeardTime (NodeInfo_new 7 0).
Proof.
  intros nm.
  apply (prune_removes_from_the_next_full_second 15 16000000000 nm 7 (NodeInfo_new 7 0)).
  - intros H. discriminate H.
  - reflexivity.
Defined.

(** X8.  Pruning twice with the same timeout and clock value is pruning
    once: the second call removes nothing and prints nothing. *)
Theorem second_prune_is_silent_noop (timeoutDuration now : Z) (nm : NodeManager) :
  pruneTimeouts timeoutDuration now (pruneTimeouts timeoutDuration now nm).1 =
    ((pruneTimeouts timeoutDuration now nm).1, []).
Proof.
  set (nm' := (pruneTimeouts timeoutDuration now nm).1).
  assert (nodesToRemove timeoutDuration now (m_nodeMap nm') = []) as Hnone.
  { apply elem_of_nil_inv. intros id (info & Hid & Hout)%elem_of_nodesToRemove.
    unfold nm' in Hid. rewrite pruneTimeouts_lookup in Hid.
    destruct (m_nodeMap nm !! id) as [old |]; [| done].
    destruct (timed_out timeoutDuration now old) eqn:Hold; [done |].
    congruence. }
  unfold pruneTimeouts at 1. rewrite Hnone. by destruct nm'.
Qed.

(** X9.  [pruneTimeouts] prints one line per removed id and nothing else,
    in increasing id order; the ids printed are exactly those that had an
    entry before the call and have none after it. *)
Theorem prune_reports_exactly_the_removed_ids (timeoutDuration now : Z)
    (nm : NodeManager) :
  ∃ ids,
    (pruneTimeouts timeoutDuration now nm).2 = timed_out_line <$> ids ∧
    StronglySorted Z.lt ids ∧
    ∀ id, id ∈ ids ↔
          is_Some (m_nodeMap nm !! id) ∧
          m_nodeMap (pruneTimeouts timeoutDuration now nm).1 !! id = None.
Proof.
  exists (nodesToRemove timeoutDuration now (m_nodeMap nm)). split; [| split].
  - unfold pruneTimeouts, mbind, Console_bind.
    pose proof (erase_all_output
      (nodesToRemove timeoutDuration now (m_nodeMap nm)) (m_nodeMap nm)) as H.
    destruct (erase_all _ _) as [m o]. cbn in *. by rewrite app_nil_r.
  - apply nodesToRemove_increasing.
  - intros id. rewrite elem_of_nodesToRemove, pruneTimeouts_lookup. split.
    + intros (info & -> & ->). by split; [eexists |].
    + intros [[info Hid] Hgone]. rewrite Hid in Hgone. exists info. split; [done |].
      by destruct (timed_out timeoutDuration now info).
Qed.

(** X10.  A peer heard less than [T + 1] seconds before a prune survives
    it: after a touch at [now], a prune with timeout [T] at [later] keeps
    the entry, with [now] as its last-heard time. *)
Theorem peer_heard_within_timeout_survives_prune (id now later timeoutDuration : Z)
    (nm : NodeManager) :
  id ≠ m_selfNodeId nm →
  0 <= timeoutDuration →
  later - now < (timeoutDuration + 1) * ticks_per_second →
  ∃ info,
    m_nodeMap (pruneTimeouts timeoutDuration later (updateLastHeardTime id now nm).1).1 !! id
      = Some info ∧
    lastHeardTime info = now.
Proof.
  intros Hself HT Hfresh.
  rewrite pruneTimeouts_lookup, updateLastHeardTime_nodeMap, lookup_insert_eq by done.
  set (info := touched id now (m_nodeMap nm !! id)).
  assert (lastHeardTime info = now) as Hnow by apply lastHeardTime_touched.
  destruct (timed_out timeoutDuration later info) eqn:Hout.
  - apply timed_out_iff in Hout; [lia | done].
  - by exists info.
Qed.

Lemma peer_heard_within_timeout_survives_prune_witness :
  ∃ info,
    m_nodeMap (pruneTimeouts 15 15999999999
                 (updateLastHeardTime 7 0 (NodeManager_new 1)).1).1 !! 7 = Some info ∧
    lastHeardTime info = 0.
Proof.
  apply (peer_heard_within_timeout_survives_prune 7 0 15999999999 15 (NodeManager_new 1)).
  - intros H. discriminate H.
  - intros H. discriminate H.
  - reflexivity.
Defined.

(** * Printing the node list *)

Section printing.
Implicit Types (nm : NodeManager) (nodes : list NodeInfo) (node : NodeInfo).

Lemma Console_bind_snd {A B} (c : Console A) (k : A → Console B) :
  (a ← c; k a).2 = c.2 ++ (k c.1).2.
Proof.
  destruct c as [a o]. unfold mbind, Console_bind. cbn.
  by destruct (k a).
Qed.

Lemma print_nodes_output now nodes :
  (print_nodes now nodes).2 = nodes ≫= λ node, (print_node now node).2.
Proof.
  induction nodes as [| node nodes IH]; [done |].
  cbn [print_nodes]. by rewrite Console_bind_snd, IH.
Qed.

Lemma printNodeList_output now nm :
  (printNodeList now nm).2 =
    match getNodeList nm with
    | [] => []
    | _ :: _ =>
        Cout "===== Known Network Nodes ({}) =====" [Z.of_nat (length (getNodeList nm))]
        :: (getNodeList nm ≫= λ node, (print_node now node).2)
        ++ [Cout "========================================" []]
    end.
Proof.
  unfold printNodeList. destruct (getNodeList nm) as [| node nodes] eqn:Hlist; [done |].
  rewrite <- print_nodes_output. by rewrite !Console_bind_snd.
Qed.

Lemma getNodeList_nil nm : getNodeList nm = [] ↔ m_nodeMap nm = ∅.
Proof.
  rewrite <- map_size_empty_iff, <- length_map_to_list, <- map_items_Permutation.
  unfold getNodeList. rewrite <- (length_fmap snd). symmetry. apply length_zero_iff_nil.
Qed.

End printing.

(** X11.  [printNodeList] prints nothing at all exactly when the registry
    is empty. *)
Theorem printNodeList_is_silent_iff_empty (now : Z) (nm : NodeManager) :
  (printNodeList now nm).2 = [] ↔ m_nodeMap nm = ∅.
Proof.
  rewrite printNodeList_output, <- getNodeList_nil.
  by destruct (getNodeList nm).
Qed.



(** * The life of the transport *)

Section transport_life.
Implicit Types (sys : winsock) (net : NetworkManager) (tr : list Effect).

Lemma count_effects_app p tr1 tr2 :
  count_effects p (tr1 ++ tr2) = (count_effects p tr1 + count_effects p tr2)%nat.
Proof. unfold count_effects. by rewrite filter_app, length_app. Qed.

Lemma count_effects_cons p e tr :
  count_effects p (e :: tr) = ((if p e then 1 else 0) + count_effects p tr)%nat.
Proof.
  unfold count_effects. rewrite filter_cons.
  destruct (p e); by case_decide.
Qed.

Lemma count_effects_nil p : count_effects p [] = 0%nat.
Proof. done. Qed.
End transport_life.

Ltac count_trace :=
  cbn [effects result mbind Traced_bind syscall say app mret Traced_ret];
  rewrite ?count_effects_app, ?count_effects_cons, ?count_effects_nil;
  cbn [is_open_of is_close_of is_startup is_cleanup];
  repeat case_bool_decide; cbn [andb]; try done; try lia; try congruence.

Lemma NetworkManager_new_initialized (sys : winsock) (port receiveTimeoutMs : Z) :
  m_initialized (result (NetworkManager_new sys port receiveTimeoutMs)) = true ↔
    WSAStartup_result sys = 0 ∧
    send_socket_result sys ≠ INVALID_SOCKET ∧
    setsockopt_broadcast_result sys ≠ SOCKET_ERROR ∧
    inet_pton_result sys = 1 ∧
    recv_socket_result sys ≠ INVALID_SOCKET ∧
    bind_result sys ≠ SOCKET_ERROR.
Proof.
  unfold NetworkManager_new.
  cbn [m_sendSocket m_recvSocket set_sendSocket set_recvSocket set_broadcastAddr].
  repeat case_bool_decide;
    cbn [result mbind Traced_bind syscall say mret Traced_ret
         m_initialized set_initialized];
    (split; [intros Hinit; first [discriminate Hinit | done] | intros (?&?&?&?&?&?); done]).
Qed.


(** X14.  The constructor leaves the manager initialized exactly when
    [WSAStartup], both [socket] calls, [setsockopt(SO_BROADCAST)],
    [inet_pton] and [bind] all succeed.  A failing
    [setsockopt(SO_REUSEADDR)] or [setsockopt(SO_RCVTIMEO)] does not stop
    it. *)
Theorem constructor_succeeds_iff (sys : winsock) (port receiveTimeoutMs : Z) :
  m_initialized (result (NetworkManager_new sys port receiveTimeoutMs)) = true ↔
    WSAStartup_result sys = 0 ∧
    send_socket_result sys ≠ INVALID_SOCKET ∧
    setsockopt_broadcast_result sys ≠ SOCKET_ERROR ∧
    inet_pton_result sys = 1 ∧
    recv_socket_result sys ≠ INVALID_SOCKET ∧
    bind_result sys ≠ SOCKET_ERROR.
Proof. apply NetworkManager_new_initialized. Qed.

(** X15.  A constructor that fails returns with nothing left behind: it
    has closed every socket it created, and it has called [WSACleanup]
    exactly if [WSAStartup] had succeeded. *)
Theorem failed_constructor_releases_everything (sys : winsock)
    (port receiveTimeoutMs : Z) (s : Z) :
  let made := NetworkManager_new sys port receiveTimeoutMs in
  m_initialized (result made) = false →
  count_effects (is_open_of s) (effects made) = count_effects (is_close_of s) (effects made) ∧
  count_effects is_startup (effects made) = count_effects is_cleanup (effects made).
Proof.
  intros made. unfold made, NetworkManager_new.
  cbn [m_sendSocket m_recvSocket set_sendSocket set_recvSocket set_broadcastAddr m_port].
  repeat case_bool_decide;
    cbn [result mbind Traced_bind syscall say mret Traced_ret
         m_initialized set_initialized];
    intros Hinit; try discriminate Hinit; split; count_trace.
Qed.

Lemma failed_constructor_releases_everything_witness :
  let sys := {| WSAStartup_result := 0; send_socket_result := 100;
                setsockopt_broadcast_result := 0; inet_pton_result := 1;
                inet_pton_addr := 4294967295; recv_socket_result := 104;
                setsockopt_reuseaddr_result := 0; setsockopt_rcvtimeo_result := 0;
                bind_result := SOCKET_ERROR; WSAGetLastError := λ _, 10048 |} in
  let made := NetworkManager_new sys TDL_PORT 1000 in
  count_effects (is_open_of 100) (effects made)
    = count_effects (is_close_of 100) (effects made) ∧
  count_effects is_startup (effects made) = count_effects is_cleanup (effects made).
Proof.
  intros sys.
  apply (failed_constructor_releases_everything sys TDL_PORT 1000 100).
  reflexivity.
Defined.

(** X16.  After a successful constructor both sockets are open and stay
    so until the destructor, which closes each handle it was given once
    and then releases the network stack once. *)
Theorem successful_lifetime_is_balanced (sys : winsock) (port receiveTimeoutMs : Z) (s : Z) :
  let made := NetworkManager_new sys port receiveTimeoutMs in
  let gone := NetworkManager_delete (result made) in
  m_initialized (result made) = true →
  count_effects (is_close_of s) (effects made) = 0%nat ∧
  count_effects is_cleanup (effects made) = 0%nat ∧
  count_effects (is_close_of s) (effects gone) = count_effects (is_open_of s) (effects made) ∧
  count_effects is_cleanup (effects gone) = count_effects is_startup (effects made).
Proof.
  intros made gone. unfold gone, made, NetworkManager_delete, NetworkManager_new.
  cbn [m_sendSocket m_recvSocket set_sendSocket set_recvSocket set_broadcastAddr m_port].
  repeat case_bool_decide;
    cbn [result mbind Traced_bind syscall say mret Traced_ret
         m_initialized set_initialized m_sendSocket m_recvSocket];
    intros Hinit; try discriminate Hinit;
    repeat case_bool_decide; try done;
    repeat split; count_trace.
Qed.

Lemma successful_lifetime_is_balanced_witness :
  let sys := {| WSAStartup_result := 0; send_socket_result := 100;
                setsockopt_broadcast_result := 0; inet_pton_result := 1;
                inet_pton_addr := 4294967295; recv_socket_result := 104;
                setsockopt_reuseaddr_result := 0; setsockopt_rcvtimeo_result := 0;
                bind_result := 0; WSAGetLastError := λ _, 0 |} in
  let made := NetworkManager_new sys TDL_PORT 1000 in
  let gone := NetworkManager_delete (result made) in
  count_effects (is_close_of 104) (effects made) = 0%nat ∧
  count_effects is_cleanup (effects made) = 0%nat ∧
  count_effects (is_close_of 104) (effects gone)
    = count_effects (is_open_of 104) (effects made) ∧
  count_effects is_cleanup (effects gone) = count_effects is_startup (effects made).
Proof.
  intros sys.
  apply (successful_lifetime_is_balanced sys TDL_PORT 1000 104).
  reflexivity.
Defined.

(** X17.  After a failed constructor the members still hold the handles
    that were closed, so the destructor calls [closesocket] once more on
    every socket the constructor had created; it does not call
    [WSACleanup] again. *)
Theorem destructor_after_failure_closes_again (sys : winsock)
    (port receiveTimeoutMs : Z) (s : Z) :
  let made := NetworkManager_new sys port receiveTimeoutMs in
  let gone := NetworkManager_delete (result made) in
  m_initialized (result made) = false →
  count_effects (is_close_of s) (effects gone) = count_effects (is_open_of s) (effects made) ∧
  count_effects is_cleanup (effects gone) = 0%nat.
Proof.
  intros made gone. unfold gone, made, NetworkManager_delete, NetworkManager_new.
  cbn [m_sendSocket m_recvSocket set_sendSocket set_recvSocket set_broadcastAddr m_port].
  repeat case_bool_decide;
    cbn [result mbind Traced_bind syscall say mret Traced_ret
         m_initialized set_initialized m_sendSocket m_recvSocket];
    intros Hinit; try discriminate Hinit;
    repeat case_bool_decide; try done;
    repeat split; count_trace.
Qed.

Lemma destructor_after_failure_closes_again_witness :
  let sys := {| WSAStartup_result := 0; send_socket_result := 100;
                setsockopt_broadcast_result := 0; inet_pton_result := 1;
                inet_pton_addr := 4294967295; recv_socket_result := 104;
                setsockopt_reuseaddr_result := 0; setsockopt_rcvtimeo_result := 0;
                bind_result := SOCKET_ERROR; WSAGetLastError := λ _, 10048 |} in
  let made := NetworkManager_new sys TDL_PORT 1000 in
  let gone := NetworkManager_delete (result made) in
  count_effects (is_close_of 100) (effects gone)
    = count_effects (is_open_of 100) (effects made) ∧
  count_effects is_cleanup (effects gone) = 0%nat.
Proof.
  intros sys.
  apply (destructor_after_failure_closes_again sys TDL_PORT 1000 100).
  reflexivity.
Defined.

(** X18.  Over the whole life of a manager, constructor then destructor,
    [WSACleanup] is called exactly as often as [WSAStartup] succeeded,
    whether the constructor succeeds or fails. *)
Theorem startup_and_cleanup_are_balanced (sys : winsock) (port receiveTimeoutMs : Z) :
  let made := NetworkManager_new sys port receiveTimeoutMs in
  let life := effects made ++ effects (NetworkManager_delete (result made)) in
  count_effects is_cleanup life = count_effects is_startup life.
Proof.
  intros made life. unfold life, made, NetworkManager_delete, NetworkManager_new.
  cbn [m_sendSocket m_recvSocket set_sendSocket set_recvSocket set_broadcastAddr m_port].
  repeat case_bool_decide;
    cbn [result mbind Traced_bind syscall say mret Traced_ret
         m_initialized set_initialized m_sendSocket m_recvSocket];
    repeat case_bool_decide; try done; count_trace.
Qed.

(** X19.  If any of the steps the constructor needs fails, the manager it
    leaves is inert: whatever the system would answer, [sendBroadcast]
    returns [false] and [receive] returns no packet, and neither prints. *)
Theorem failed_transport_is_inert (sys : winsock) (port receiveTimeoutMs : Z)
    (sendto : Z → list byte → Z → Z → sendto_outcome)
    (recvfrom : Z → Z → recvfrom_outcome) (bytes : list byte) (size : Z) :
  let net := result (NetworkManager_new sys port receiveTimeoutMs) in
  WSAStartup_result sys ≠ 0 ∨
  send_socket_result sys = INVALID_SOCKET ∨
  setsockopt_broadcast_result sys = SOCKET_ERROR ∨
  inet_pton_result sys ≠ 1 ∨
  recv_socket_result sys = INVALID_SOCKET ∨
  bind_result sys = SOCKET_ERROR →
  sendBroadcast sendto bytes size net = (false, []) ∧
  receive recvfrom net = (None, []).
Proof.
  intros net Hfail.
  assert (m_initialized net = false) as Hinit.
  { destruct (m_initialized net) eqn:Hinit; [| done].
    apply NetworkManager_new_initialized in Hinit as (?&?&?&?&?&?).
    destruct Hfail as [? | [? | [? | [? | [? | ?]]]]]; done. }
  unfold sendBroadcast, receive. by rewrite Hinit.
Qed.

Lemma failed_transport_is_inert_witness :
  let sys := {| WSAStartup_result := 10091; send_socket_result := 100;
                setsockopt_broadcast_result := 0; inet_pton_result := 1;
                inet_pton_addr := 4294967295; recv_socket_result := 104;
                setsockopt_reuseaddr_result := 0; setsockopt_rcvtimeo_result := 0;
                bind_result := 0; WSAGetLastError := λ _, 0 |} in
  let net := result (NetworkManager_new sys TDL_PORT 1000) in
  let sendto := λ (_ : Z) (_ : list byte) (_ _ : Z),
    {| sendto_return := 8; sendto_lastError := 0 |} in
  let recvfrom := λ _ _ : Z,
    {| recvfrom_return := 1; recvfrom_buffer := [Byte.x01];
       recvfrom_from := 0; recvfrom_lastError := 0 |} in
  sendBroadcast sendto [Byte.x01] 1 net = (false, []) ∧
  receive recvfrom net = (None, []).
Proof.
  intros sys net sendto recvfrom.
  apply (failed_transport_is_inert sys TDL_PORT 1000 sendto recvfrom [Byte.x01] 1).
  left. intros H. discriminate H.
Defined.

(** * Receiving and sending, case by case *)

(** X20.  [receive] yields a packet exactly when the manager is
    initialized, has a receive socket, and [recvfrom] returned neither
    [SOCKET_ERROR] nor zero. *)
Theorem receive_returns_packet_iff (recvfrom : Z → Z → recvfrom_outcome)
    (net : NetworkManager) :
  let bytesReceived :=
    recvfrom_return (recvfrom (m_recvSocket net) (static_cast_int RECEIVE_BUFFER_SIZE)) in
  is_Some (receive recvfrom net).1 ↔
    m_initialized net = true ∧ m_recvSocket net ≠ INVALID_SOCKET ∧
    bytesReceived ≠ SOCKET_ERROR ∧ bytesReceived ≠ 0.
Proof.
  intros bytesReceived. unfold receive. fold bytesReceived.
  destruct (m_initialized net); cbn [negb orb].
  - repeat case_bool_decide; cbn [fst];
      (split; [intros Hsome; first [by apply is_Some_None in Hsome | done]
              | intros (?&?&?&?); first [done | by eexists]]).
  - split; [by intros ?%is_Some_None | by intros (? & _)].
Qed.

(** X21.  When [recvfrom] delivers [n] bytes, with [n] positive and within
    the buffer, the packet [receive] returns holds exactly the first [n]
    bytes of the buffer and the sender address, and nothing is printed. *)
Theorem received_packet_is_the_datagram (recvfrom : Z → Z → recvfrom_outcome)
    (net : NetworkManager) :
  let received := recvfrom (m_recvSocket net) (static_cast_int RECEIVE_BUFFER_SIZE) in
  let n := recvfrom_return received in
  m_initialized net = true →
  m_recvSocket net ≠ INVALID_SOCKET →
  0 < n <= Z.of_nat (length (recvfrom_buffer received)) →
  ∃ packet,
    receive recvfrom net = (Some packet, []) ∧
    data packet = take (Z.to_nat n) (recvfrom_buffer received) ∧
    packet_size packet = n ∧
    senderAddress packet = recvfrom_from received.
Proof.
  intros received n Hinit Hsock Hn. unfold receive. fold received. fold n.
  rewrite Hinit. cbn [negb orb].
  rewrite !bool_decide_eq_false_2 by (unfold SOCKET_ERROR; first [done | lia]).
  eexists. split; [done |]. cbn [data senderAddress]. unfold packet_size. cbn [data].
  rewrite resize_le by lia. split; [done |]. split; [| done].
  rewrite length_take. lia.
Qed.

Lemma received_packet_is_the_datagram_witness :
  let net := {| m_initialized := true; m_sendSocket := 3; m_recvSocket := 4;
                m_broadcastAddr := 0; m_port := 30000 |} in
  let recvfrom := λ _ _ : Z,
    {| recvfrom_return := 2; recvfrom_buffer := [Byte.x01; Byte.x02; Byte.x00];
       recvfrom_from := 9; recvfrom_lastError := 0 |} in
  ∃ packet,
    receive recvfrom net = (Some packet, []) ∧
    data packet = take (Z.to_nat 2) [Byte.x01; Byte.x02; Byte.x00] ∧
    packet_size packet = 2 ∧
    senderAddress packet = 9.
Proof.
  intros net recvfrom.
  apply (received_packet_is_the_datagram recvfrom net).
  - reflexivity.
  - intros H. discriminate H.
  - cbn. lia.
Defined.



(** X23.  A send that [sendto] reports as complete returns [true] and
    prints nothing. *)
Theorem full_send_is_silent_success
    (sendto : Z → list byte → Z → Z → sendto_outcome)
    (bytes : list byte) (size : Z) (net : NetworkManager) :
  m_initialized net = true →
  m_sendSocket net ≠ INVALID_SOCKET →
  0 <= size < 2 ^ 31 →
  sendto_return (sendto (m_sendSocket net) bytes size (m_broadcastAddr net)) = size →
  sendBroadcast sendto bytes size net = (true, []).
Proof.
  intros Hinit Hsock Hsize Hsent.
  assert (static_cast_int size = size) as Hcast.
  { unfold static_cast_int. rewrite Z.mod_small; lia. }
  apply sendBroadcast_full_send; rewrite ?Hcast; try done.
  unfold SOCKET_ERROR. lia.
Qed.

Lemma full_send_is_silent_success_witness :
  let net := {| m_initialized := true; m_sendSocket := 3; m_recvSocket := 4;
                m_broadcastAddr := 0; m_port := 30000 |} in
  let sendto := λ (_ : Z) (_ : list byte) (len _ : Z),
    {| sendto_return := len; sendto_lastError := 0 |} in
  sendBroadcast sendto (le_split 8 0) 8 net = (true, []).
Proof.
  intros net sendto.
  apply (full_send_is_silent_success sendto (le_split 8 0) 8 net).
  - reflexivity.
  - intros H. discriminate H.
  - lia.
  - reflexivity.
Defined.

(** * The receiver loop as a sequence of registry calls *)

Section receiver_calls.
Implicit Types (nm : NodeManager) (its : list iteration) (net : NetworkManager).

Lemma receiverDispatch_calls receivedOpt now1 now2 nm :
  (receiverDispatch receivedOpt now1 now2 nm).1 =
    (run_calls (Mutate <$> packet_calls receivedOpt now1 now2 (m_selfNodeId nm)) nm).1.
Proof.
  destruct receivedOpt as [packet |]; [| done].
  unfold receiverDispatch, packet_calls, getSelfNodeId.
  case_bool_decide; [done |].
  case_bool_decide; [done |].
  rewrite Console_bind_fst. cbn [fmap list_fmap run_calls apply_call apply_update].
  rewrite (Console_bind_fst (updateLastHeardTime _ _ _)).
  set (nm' := (updateLastHeardTime _ now1 nm).1).
  repeat case_bool_decide; cbn [andb fmap list_fmap run_calls apply_call apply_update];
    rewrite ?Console_bind_fst; try done.
Qed.

Lemma receiverIteration_calls it net nm :
  (receiverIteration it net nm).1 =
    (run_calls (Mutate <$> iteration_calls net (m_selfNodeId nm) it) nm).1.
Proof.
  unfold receiverIteration, iteration_calls.
  rewrite Console_bind_fst. apply receiverDispatch_calls.
Qed.

Lemma receiverLoop_calls its net nm :
  (receiverLoop its net nm).1 =
    (run_calls (Mutate <$> loop_calls net (m_selfNodeId nm) its) nm).1.
Proof.
  revert nm. induction its as [| it its IH]; intros nm; [done |].
  cbn [receiverLoop]. rewrite Console_bind_fst, IH.
  unfold loop_calls. cbn [mbind list_bind]. rewrite fmap_app, run_calls_app.
  rewrite receiverIteration_calls, run_calls_selfNodeId. done.
Qed.

Lemma update_times_Mutate (us : list Update) :
  update_times (Mutate <$> us) = update_now <$> us.
Proof. induction us as [| u us IH]; [done |]. cbn. by f_equal. Qed.

Lemma iteration_calls_clock net self it :
  update_now <$> iteration_calls net self it `sublist_of` [it_now1 it; it_now2 it].
Proof.
  unfold iteration_calls, packet_calls.
  destruct (receive (it_recvfrom it) net).1 as [packet |]; [| apply sublist_nil_l].
  repeat case_bool_decide; cbn [andb fmap list_fmap update_now];
    first [apply sublist_nil_l | done | by apply sublist_skip, sublist_cons].
Qed.

Lemma loop_calls_clock net self its :
  update_now <$> loop_calls net self its `sublist_of` loop_clock its.
Proof.
  induction its as [| it its IH]; [done |].
  unfold loop_calls, loop_clock. cbn [mbind list_bind]. rewrite fmap_app.
  apply sublist_app; [apply iteration_calls_clock | apply IH].
Qed.

Lemma StronglySorted_sublist {A} (R : relation A) (k l : list A) :
  k `sublist_of` l → StronglySorted R l → StronglySorted R k.
Proof.
  induction 1 as [| x k l Hsub IH | x k l Hsub IH]; intros Hsorted; [done | |].
  - apply StronglySorted_inv in Hsorted as [Hl Hall]. constructor; [by apply IH |].
    apply Forall_forall. intros y Hy.
    eapply Forall_forall in Hall; [exact Hall |]. by eapply elem_of_sublist.
  - apply StronglySorted_inv in Hsorted as [Hl _]. by apply IH.
Qed.

Lemma loop_clock_app its1 its2 : loop_clock (its1 ++ its2) = loop_clock its1 ++ loop_clock its2.
Proof. unfold loop_clock. apply bind_app. Qed.

Lemma loop_calls_app net self its1 its2 :
  loop_calls net self (its1 ++ its2) = loop_calls net self its1 ++ loop_calls net self its2.
Proof. unfold loop_calls. apply bind_app. Qed.
End receiver_calls.

(** X24.  A packet with a full header that carries the local node's own
    id is dropped whole, whatever its type and size.  A packet of a type
    the receiver does not know, from another node, is not: it still
    touches its sender, and does nothing else. *)
Theorem own_packets_dropped_unknown_types_touch (packet : ReceivedPacket)
    (now1 now2 : Z) (nm : NodeManager) :
  sizeof_MessageHeader <= packet_size packet →
  let hdr := MessageHeader_of_bytes (data packet) in
  (sourceNodeId hdr = m_selfNodeId nm →
   receiverDispatch (Some packet) now1 now2 nm = (nm, [])) ∧
  (sourceNodeId hdr ≠ m_selfNodeId nm →
   expected_size (messageType hdr) = None →
   receiverDispatch (Some packet) now1 now2 nm =
     updateLastHeardTime (sourceNodeId hdr) now1 nm).
Proof.
  intros Hsize hdr. unfold receiverDispatch. fold hdr.
  rewrite bool_decide_eq_false_2 by lia. split.
  - intros Hself. by rewrite bool_decide_eq_true_2.
  - intros Hself Hunknown. rewrite bool_decide_eq_false_2 by done.
    unfold expected_size in Hunknown.
    destruct (decide (messageType hdr = POSITION_REPORT_TYPE)); [done |].
    destruct (decide (messageType hdr = HEARTBEAT_TYPE)); [done |].
    destruct (decide (messageType hdr = TEXT_MESSAGE_TYPE)); [done |].
    rewrite (bool_decide_eq_false_2 (messageType hdr = POSITION_REPORT_TYPE)) by done.
    rewrite (bool_decide_eq_false_2 (messageType hdr = HEARTBEAT_TYPE)) by done.
    rewrite (bool_decide_eq_false_2 (messageType hdr = TEXT_MESSAGE_TYPE)) by done.
    apply Console_bind_ret.
Qed.

Lemma own_packets_dropped_unknown_types_touch_witness :
  let packet := {| data := MessageHeader_bytes {| messageType := 9; sourceNodeId := 7 |};
                   senderAddress := 0 |} in
  (7 = 1 → receiverDispatch (Some packet) 10 11 (NodeManager_new 1)
           = (NodeManager_new 1, [])) ∧
  (7 ≠ 1 → expected_size 9 = None →
   receiverDispatch (Some packet) 10 11 (NodeManager_new 1)
     = updateLastHeardTime 7 10 (NodeManager_new 1)).
Proof.
  intros packet.
  apply (own_packets_dropped_unknown_types_touch packet 10 11 (NodeManager_new 1)).
  intros H. discriminate H.
Defined.

(** X25.  Over a run of the receiver loop on a fresh manager, with a clock
    that does not go back, the last-heard time held for an id after some
    iterations is at most the one held for it after any further
    iterations. *)
Theorem receiver_loop_never_turns_time_back (self : Z) (net : NetworkManager)
    (its1 its2 : list iteration) (id : Z) (info1 info2 : NodeInfo) :
  StronglySorted Z.le (loop_clock (its1 ++ its2)) →
  m_nodeMap (receiverLoop its1 net (NodeManager_new self)).1 !! id = Some info1 →
  m_nodeMap (receiverLoop (its1 ++ its2) net (NodeManager_new self)).1 !! id = Some info2 →
  lastHeardTime info1 <= lastHeardTime info2.
Proof.
  rewrite !receiverLoop_calls. cbn [NodeManager_new m_selfNodeId].
  rewrite loop_calls_app, fmap_app, run_calls_app.
  intros Hclock H1 H2.
  assert (StronglySorted Z.le
            (update_times (Mutate <$> loop_calls net self its1) ++
             update_times (Mutate <$> loop_calls net self its2))) as Hsorted.
  { rewrite !update_times_Mutate, <- fmap_app, <- loop_calls_app.
    eapply StronglySorted_sublist; [apply loop_calls_clock | done]. }
  apply (lastHeardTime_bound_kept _ _ id (lastHeardTime info1)) in H2; [done | |].
  - apply Forall_forall. intros t Ht.
    eapply StronglySorted_app_1_elem_of; [exact Hsorted | | exact Ht].
    by eapply lastHeardTime_was_read.
  - intros info. rewrite H1. by intros [= ->].
Qed.

(** * Text messages and heartbeats on the wire *)

Section text.
Implicit Types (l g : list byte) (b : byte).

Lemma c_str_prefix l : c_str l `prefix_of` l.
Proof.
  induction l as [| b l IH]; [done |]. cbn [c_str].
  destruct (Byte.eqb b Byte.x00); [apply prefix_nil | by apply prefix_cons].
Qed.

Lemma c_str_no_NUL l : Forall (λ b, b ≠ Byte.x00) (c_str l).
Proof.
  induction l as [| b l IH]; [constructor |]. cbn [c_str].
  destruct (Byte.eqb b Byte.x00) eqn:Hb; [constructor |].
  constructor; [by apply Byte.eqb_false | done].
Qed.

Lemma c_str_insert l (i : nat) :
  (i < length l)%nat → c_str (<[i := Byte.x00]> l) = c_str (take i l).
Proof.
  revert i. induction l as [| b l IH]; intros i Hi; [cbn in Hi; lia |].
  destruct i as [| i]; [done |].
  cbn [c_str take list_insert insert]. cbn in Hi.
  destruct (Byte.eqb b Byte.x00); [done |]. f_equal. apply IH. lia.
Qed.

Lemma c_str_padded g (k : nat) :
  Forall (λ b, b ≠ Byte.x00) g → c_str (g ++ replicate k Byte.x00) = g.
Proof.
  induction 1 as [| b g Hb Hg IH]; cbn.
  - by destruct k.
  - destruct (Byte.eqb b Byte.x00) eqn:Heq; [| by rewrite IH].
    by apply Byte.byte_dec_bl in Heq.
Qed.

Lemma list_byte_of_string_app (s1 s2 : string) :
  list_byte_of_string (s1 ++ s2)%string = list_byte_of_string s1 ++ list_byte_of_string s2.
Proof.
  unfold list_byte_of_string. rewrite <- List.map_app. f_equal.
  induction s1 as [| a s1 IH]; [done |]. simpl. by rewrite IH.
Qed.

Lemma digits_no_NUL (d : Decimal.uint) :
  Forall (λ b, b ≠ Byte.x00) (list_byte_of_string (NilEmpty.string_of_uint d)).
Proof.
  induction d; cbn; constructor; first [done | by intros H; discriminate H].
Qed.

Lemma greeting_no_NUL (myNodeId : Z) : Forall (λ b, b ≠ Byte.x00) (greeting myNodeId).
Proof.
  unfold greeting, to_string. rewrite !list_byte_of_string_app.
  rewrite !Forall_app. split; [| split].
  - vm_compute. repeat constructor; by intros H; discriminate H.
  - apply digits_no_NUL.
  - vm_compute. repeat constructor; by intros H; discriminate H.
Qed.

Lemma MessageHeader_of_bytes_app (h : MessageHeader) (rest : list byte) :
  uint32 (messageType h) → uint32 (sourceNodeId h) →
  MessageHeader_of_bytes (MessageHeader_bytes h ++ rest) = h.
Proof.
  intros Ht Hs. destruct h as [ty src].
  unfold MessageHeader_of_bytes, MessageHeader_bytes.
  cbn [messageType sourceNodeId] in *.
  rewrite <- !app_assoc. f_equal.
  - rewrite field_here. apply Z.mod_small, Ht.
  - rewrite (field_skip 4 0 4) by apply length_le_split.
    rewrite field_here. apply Z.mod_small, Hs.
Qed.

Lemma length_MessageHeader_bytes (h : MessageHeader) :
  length (MessageHeader_bytes h) = 8%nat.
Proof. unfold MessageHeader_bytes. by rewrite length_app, !length_le_split. Qed.

(** The iteration for a well-sized text message from another node. *)
Lemma receiverDispatch_text (packet : ReceivedPacket) (now1 now2 : Z) (nm : NodeManager) :
  packet_size packet = sizeof_TextMessage →
  messageType (MessageHeader_of_bytes (data packet)) = TEXT_MESSAGE_TYPE →
  sourceNodeId (MessageHeader_of_bytes (data packet)) ≠ m_selfNodeId nm →
  let src := sourceNodeId (MessageHeader_of_bytes (data packet)) in
  let touch := updateLastHeardTime src now1 nm in
  receiverDispatch (Some packet) now1 now2 nm =
    (touch.1,
     touch.2 ++
     [Cout "--- Text Message Received ---" [];
      Cout "  From Node: {} [{}]" [src; senderAddress packet];
      CoutBytes "  Message:   "
        (c_str (take 63 (take 64 (drop 8 (data packet)))));
      Cout "-----------------------------" []]).
Proof.
  intros Hsize Htype Hsrc src touch. unfold receiverDispatch.
  rewrite Hsize, Htype.
  rewrite bool_decide_eq_false_2 by (unfold sizeof_TextMessage, sizeof_MessageHeader; lia).
  rewrite bool_decide_eq_false_2 by done.
  rewrite (bool_decide_eq_false_2 (TEXT_MESSAGE_TYPE = POSITION_REPORT_TYPE)) by done.
  rewrite (bool_decide_eq_false_2 (TEXT_MESSAGE_TYPE = HEARTBEAT_TYPE)) by done.
  rewrite !bool_decide_eq_true_2 by done.
  fold src. fold touch. destruct touch as [nm' o].
  unfold mbind, Console_bind, print, mret, Console_ret. cbn [fst snd].
  cbn [TextMessage_of_bytes text].
  change (Z.to_nat (MAX_TEXT_MSG_LENGTH - 1)) with 63%nat.
  change (Z.to_nat MAX_TEXT_MSG_LENGTH) with 64%nat.
  rewrite c_str_insert; [done |].
  rewrite length_take, length_drop.
  unfold packet_size, sizeof_TextMessage in Hsize. lia.
Qed.
End text.

(** X26.  For a text message of the right size from another node the
    receiver touches the sender and prints the text, and nothing else
    happens to the registry.  The text printed is read from the 64-byte
    field up to its first NUL but never beyond its first 63 bytes. *)
Theorem received_text_is_printed_bounded (packet : ReceivedPacket) (now1 now2 : Z)
    (nm : NodeManager) :
  packet_size packet = sizeof_TextMessage →
  messageType (MessageHeader_of_bytes (data packet)) = TEXT_MESSAGE_TYPE →
  sourceNodeId (MessageHeader_of_bytes (data packet)) ≠ m_selfNodeId nm →
  let src := sourceNodeId (MessageHeader_of_bytes (data packet)) in
  ∃ message,
    receiverDispatch (Some packet) now1 now2 nm =
      ((updateLastHeardTime src now1 nm).1,
       (updateLastHeardTime src now1 nm).2 ++
       [Cout "--- Text Message Received ---" [];
        Cout "  From Node: {} [{}]" [src; senderAddress packet];
        CoutBytes "  Message:   " message;
        Cout "-----------------------------" []]) ∧
    message `prefix_of` drop 8 (data packet) ∧
    (length message <= 63)%nat ∧
    Forall (λ b, b ≠ Byte.x00) message.
Proof.
  intros Hsize Htype Hsrc src.
  exists (c_str (take 63 (take 64 (drop 8 (data packet))))). split; [| split; [| split]].
  - by apply receiverDispatch_text.
  - etrans; [apply c_str_prefix |]. rewrite take_take. apply prefix_take.
  - etrans; [apply prefix_length, c_str_prefix |]. rewrite length_take. lia.
  - apply c_str_no_NUL.
Qed.

Lemma received_text_is_printed_bounded_witness :
  let packet := {| data := TextMessage_bytes (test_TextMessage 7); senderAddress := 0 |} in
  ∃ message,
    receiverDispatch (Some packet) 10 11 (NodeManager_new 1) =
      ((updateLastHeardTime 7 10 (NodeManager_new 1)).1,
       (updateLastHeardTime 7 10 (NodeManager_new 1)).2 ++
       [Cout "--- Text Message Received ---" [];
        Cout "  From Node: {} [{}]" [7; 0];
        CoutBytes "  Message:   " message;
        Cout "-----------------------------" []]) ∧
    message `prefix_of` drop 8 (data packet) ∧
    (length message <= 63)%nat ∧
    Forall (λ b, b ≠ Byte.x00) message.
Proof.
  intros packet.
  apply (received_text_is_printed_bounded packet 10 11 (NodeManager_new 1)).
  - reflexivity.
  - reflexivity.
  - intros H. discriminate H.
Defined.

(** X27.  What the sender loop broadcasts, a peer understands: its
    heartbeat makes the peer touch the sender's entry and nothing more, and
    its test message makes the peer touch the entry and print the greeting
    (its first 63 bytes). *)
Theorem sender_messages_reach_a_peer (myNodeId from now1 now2 : Z) (nm : NodeManager) :
  uint32 myNodeId →
  myNodeId ≠ m_selfNodeId nm →
  let heartbeat := {| data := HeartbeatMessage_bytes (myHeartbeat myNodeId);
                      senderAddress := from |} in
  let message := {| data := TextMessage_bytes (test_TextMessage myNodeId);
                    senderAddress := from |} in
  receiverDispatch (Some heartbeat) now1 now2 nm = updateLastHeardTime myNodeId now1 nm ∧
  receiverDispatch (Some message) now1 now2 nm =
    ((updateLastHeardTime myNodeId now1 nm).1,
     (updateLastHeardTime myNodeId now1 nm).2 ++
     [Cout "--- Text Message Received ---" [];
      Cout "  From Node: {} [{}]" [myNodeId; from];
      CoutBytes "  Message:   " (take 63 (greeting myNodeId));
      Cout "-----------------------------" []]).
Proof.
  intros Hid Hself heartbeat message. split.
  - assert (MessageHeader_of_bytes (data heartbeat) = myHeartbeat myNodeId) as Hhdr.
    { unfold heartbeat, HeartbeatMessage_bytes. cbn [data].
      rewrite <- (app_nil_r (MessageHeader_bytes _)).
      by apply MessageHeader_of_bytes_app. }
    unfold receiverDispatch. rewrite Hhdr.
    assert (packet_size heartbeat = 8) as ->.
    { unfold packet_size, heartbeat, HeartbeatMessage_bytes. cbn [data].
      by rewrite length_MessageHeader_bytes. }
    cbn [myHeartbeat messageType sourceNodeId]. unfold getSelfNodeId.
    rewrite bool_decide_eq_false_2 by (unfold sizeof_MessageHeader; lia).
    rewrite bool_decide_eq_false_2 by done.
    rewrite (bool_decide_eq_false_2 (HEARTBEAT_TYPE = POSITION_REPORT_TYPE)) by done.
    rewrite !bool_decide_eq_true_2 by done.
    apply Console_bind_ret.
  - assert (MessageHeader_of_bytes (data message) = text_header (test_TextMessage myNodeId))
      as Hhdr.
    { unfold message, TextMessage_bytes. cbn [data].
      by apply MessageHeader_of_bytes_app. }
    assert (length (text (test_TextMessage myNodeId)) = 64%nat) as Hlen.
    { cbn [test_TextMessage text]. unfold strncpy_s_TRUNCATE. by rewrite length_resize. }
    rewrite receiverDispatch_text.
    + rewrite Hhdr. cbn [test_TextMessage text_header sourceNodeId senderAddress message].
      do 6 f_equal.
      unfold message, TextMessage_bytes. cbn [data].
      rewrite drop_app_length' by by rewrite length_MessageHeader_bytes.
      rewrite (take_ge _ 64) by (rewrite Hlen; lia).
      cbn [test_TextMessage text]. unfold strncpy_s_TRUNCATE.
      change (Z.to_nat MAX_TEXT_MSG_LENGTH) with 64%nat.
      change (Z.to_nat (MAX_TEXT_MSG_LENGTH - 1)) with 63%nat.
      rewrite take_resize. change (63 `min` 64)%nat with 63%nat.
      rewrite resize_spec, take_take, Nat.min_id.
      apply c_str_padded.
      eapply List.Forall_impl; [| apply Forall_take, greeting_no_NUL]. done.
    + unfold packet_size, message, TextMessage_bytes. cbn [data].
      rewrite length_app, length_MessageHeader_bytes, Hlen. done.
    + by rewrite Hhdr.
    + by rewrite Hhdr.
Qed.

Lemma sender_messages_reach_a_peer_witness :
  let heartbeat := {| data := HeartbeatMessage_bytes (myHeartbeat 7); senderAddress := 0 |} in
  let message := {| data := TextMessage_bytes (test_TextMessage 7); senderAddress := 0 |} in
  receiverDispatch (Some heartbeat) 10 11 (NodeManager_new 1)
    = updateLastHeardTime 7 10 (NodeManager_new 1) ∧
  receiverDispatch (Some message) 10 11 (NodeManager_new 1) =
    ((updateLastHeardTime 7 10 (NodeManager_new 1)).1,
     (updateLastHeardTime 7 10 (NodeManager_new 1)).2 ++
     [Cout "--- Text Message Received ---" [];
      Cout "  From Node: {} [{}]" [7; 0];
      CoutBytes "  Message:   " (take 63 (greeting 7));
      Cout "-----------------------------" []]).
Proof.
  apply (sender_messages_reach_a_peer 7 0 10 11 (NodeManager_new 1)).
  - unfold uint32. lia.
  - intros H. discriminate H.
Defined.

Lemma receiver_loop_never_turns_time_back_witness :
  let net := {| m_initialized := true; m_sendSocket := 3; m_recvSocket := 4;
                m_broadcastAddr := 0; m_port := 30000 |} in
  let heartbeat_at := λ t1 t2 : Z,
    {| it_recvfrom := λ _ _ : Z,
         {| recvfrom_return := 8;
            recvfrom_buffer := HeartbeatMessage_bytes (myHeartbeat 7);
            recvfrom_from := 0; recvfrom_lastError := 0 |};
       it_now1 := t1; it_now2 := t2 |} in
  lastHeardTime (NodeInfo_new 7 5) <= lastHeardTime (set_lastHeardTime 9 (NodeInfo_new 7 5)).
Proof.
  intros net heartbeat_at.
  apply (receiver_loop_never_turns_time_back 1 net
           [heartbeat_at 5 6] [heartbeat_at 9 10] 7).
  - cbn. repeat constructor; lia.
  - vm_compute. reflexivity.
  - vm_compute. reflexivity.
Defined.

Section bytes_to_report.
Implicit Types (data chunk : list byte).

Lemma le_split_le_combine (n : nat) chunk :
  length chunk = n → le_split n (le_combine chunk) = chunk.
Proof. intros <-. apply split_le_combine. Qed.

Lemma field_bound (off n : nat) data :
  length data = (off + n + (length data - off - n))%nat →
  0 <= field off n data < 2 ^ (8 * Z.of_nat n).
Proof.
  intros Hlen. unfold field.
  pose proof (le_combine_bound (take n (drop off data))) as Hb.
  rewrite length_take, length_drop in Hb.
  replace (n `min` (length data - off))%nat with n in Hb by lia. done.
Qed.
End bytes_to_report.

(** X28.  Every packet of exactly [sizeof(PositionReport)] bytes is the
    byte image of the report it is copied into: writing the decoded report
    out again gives the same 32 bytes, and each decoded field is within
    the range of its type. *)
Theorem every_full_size_packet_is_a_report (bytes : list byte) :
  Z.of_nat (length bytes) = sizeof_PositionReport →
  PositionReport_bytes (PositionReport_of_bytes bytes) = bytes ∧
  PositionReport_fits (PositionReport_of_bytes bytes).
Proof.
  unfold sizeof_PositionReport. intros Hlen.
  assert (length bytes = 32%nat) as Hlen' by lia. split.
  - unfold PositionReport_bytes, MessageHeader_bytes, PositionReport_of_bytes,
      MessageHeader_of_bytes, field.
    cbn [header messageType sourceNodeId latitude longitude altitude].
    rewrite !le_split_le_combine by (rewrite length_take, length_drop; lia).
    rewrite drop_0, !app_assoc.
    rewrite (take_take_drop bytes 4 4). change (4 + 4)%nat with 8%nat.
    rewrite (take_take_drop bytes 8 8). change (8 + 8)%nat with 16%nat.
    rewrite (take_take_drop bytes 16 8). change (16 + 8)%nat with 24%nat.
    rewrite (take_take_drop bytes 24 8).
    apply take_ge. lia.
  - unfold PositionReport_fits, uint32, bits64, PositionReport_of_bytes,
      MessageHeader_of_bytes.
    cbn [header messageType sourceNodeId latitude longitude altitude].
    repeat split; first
      [ apply (field_bound _ 4); lia | apply (field_bound _ 8); lia
      | eapply Z.lt_le_trans; [apply (field_bound _ 4); lia | done]
      | eapply Z.lt_le_trans; [apply (field_bound _ 8); lia | done] ].
Qed.

Lemma every_full_size_packet_is_a_report_witness :
  let bytes := replicate 32 Byte.xff in
  PositionReport_bytes (PositionReport_of_bytes bytes) = bytes ∧
  PositionReport_fits (PositionReport_of_bytes bytes).
Proof.
  intros bytes. apply (every_full_size_packet_is_a_report bytes). reflexivity.
Defined.

(** * The sender loop *)

Section sender.
Implicit Types (st : sender_state) (nm : NodeManager) (net : NetworkManager)
  (tick : sender_tick) (ticks : list sender_tick) (os : list Output).

Lemma sent_test_lines_app os1 os2 :
  sent_test_lines (os1 ++ os2) = (sent_test_lines os1 + sent_test_lines os2)%nat.
Proof. unfold sent_test_lines. by rewrite filter_app, length_app. Qed.

Lemma sent_test_lines_none os :
  Forall (λ o, is_sent_test_line o = false) os → sent_test_lines os = 0%nat.
Proof.
  unfold sent_test_lines. induction 1 as [| o os Ho Hos IH]; [done |].
  rewrite filter_cons, decide_False by congruence. done.
Qed.

Lemma sendBroadcast_no_test_line sendto bytes size net :
  sent_test_lines (sendBroadcast sendto bytes size net).2 = 0%nat.
Proof.
  unfold sendBroadcast.
  destruct (negb (m_initialized net) || _); [done |].
  repeat case_bool_decide; done.
Qed.

Lemma pruneTimeouts_no_test_line timeoutDuration now nm :
  sent_test_lines (pruneTimeouts timeoutDuration now nm).2 = 0%nat.
Proof.
  apply sent_test_lines_none.
  unfold pruneTimeouts. rewrite Console_bind_snd, erase_all_output. cbn [snd mret Console_ret].
  rewrite app_nil_r. apply Forall_fmap, Forall_forall. done.
Qed.

Lemma print_node_no_test_line now node :
  Forall (λ o, is_sent_test_line o = false) (print_node now node).2.
Proof.
  unfold print_node, mbind, Console_bind, print.
  destruct (double_ne_zero _ || double_ne_zero _); cbn; repeat constructor.
Qed.

Lemma printNodeList_no_test_line now nm :
  sent_test_lines (printNodeList now nm).2 = 0%nat.
Proof.
  apply sent_test_lines_none. rewrite printNodeList_output.
  destruct (getNodeList nm) as [| node nodes]; [constructor |].
  constructor; [done |]. apply Forall_app. split; [| by repeat constructor].
  apply Forall_forall. intros o (node' & Ho & _)%list_elem_of_bind.
  pose proof (print_node_no_test_line now node') as Hall.
  by eapply Forall_forall in Hall.
Qed.

(** What one iteration leaves of the registry, and what it may print about
    the test message. *)
Lemma senderIteration_registry coords tick net st nm :
  (senderIteration coords tick net st nm).1.2 =
    (pruneTimeouts NODE_TIMEOUT_SECONDS (tick_prune_now tick) nm).1.
Proof.
  unfold senderIteration. by rewrite !Console_bind_fst.
Qed.

Definition budget st : nat := if sentTestTextMessage st then 0%nat else 1%nat.

Lemma sendPositionReport_quiet coords tick net myNodeId st :
  sent_test_lines (sendPositionReport coords tick net myNodeId st).2 = 0%nat ∧
  sentTestTextMessage (sendPositionReport coords tick net myNodeId st).1
    = sentTestTextMessage st.
Proof.
  unfold sendPositionReport. case_bool_decide; [| done].
  rewrite Console_bind_snd, Console_bind_fst, sent_test_lines_app,
    sendBroadcast_no_test_line. done.
Qed.

Lemma sendTestTextMessage_budget tick net myNodeId st :
  (sent_test_lines (sendTestTextMessage tick net myNodeId st).2
   + test_lines_left (sendTestTextMessage tick net myNodeId st).1
   <= test_lines_left st)%nat.
Proof.
  unfold sendTestTextMessage, test_lines_left.
  destruct (sentTestTextMessage st) eqn:Hflag; cbn [negb].
  { cbn [mret Console_ret fst snd]. rewrite Hflag. cbn. lia. }
  rewrite Console_bind_snd, Console_bind_fst, sent_test_lines_app,
    sendBroadcast_no_test_line.
  destruct (sendBroadcast _ _ _ _).1; cbn [mret Console_ret fst snd].
  - unfold mbind, Console_bind, print, sent_test_lines. cbn.
    rewrite decide_True by done. cbn. lia.
  - rewrite Hflag. cbn. lia.
Qed.

Lemma senderIteration_test_line coords tick net st nm :
  (sent_test_lines (senderIteration coords tick net st nm).2
   + test_lines_left (senderIteration coords tick net st nm).1.1
   <= test_lines_left st)%nat.
Proof.
  unfold senderIteration.
  rewrite !Console_bind_snd, !Console_bind_fst, !sent_test_lines_app.
  unfold sendHeartbeat at 1.
  rewrite sendBroadcast_no_test_line, pruneTimeouts_no_test_line,
    printNodeList_no_test_line.
  cbn [mret Console_ret snd fst].
  destruct (sendPositionReport_quiet coords tick net (getSelfNodeId nm) st) as [-> Hflag].
  pose proof (sendTestTextMessage_budget tick net (getSelfNodeId nm)
    (sendPositionReport coords tick net (getSelfNodeId nm) st).1) as Htext.
  assert (test_lines_left (sendPositionReport coords tick net (getSelfNodeId nm) st).1
          = test_lines_left st) as Hleft
    by (unfold test_lines_left; by rewrite Hflag).
  change (sent_test_lines []) with 0%nat. lia.
Qed.

Lemma senderLoop_test_line coords ticks net st nm :
  (sent_test_lines (senderLoop coords ticks net st nm).2 <= test_lines_left st)%nat.
Proof.
  revert st nm. induction ticks as [| tick ticks IH]; intros st nm; [cbn; lia |].
  cbn [senderLoop]. rewrite Console_bind_snd, sent_test_lines_app.
  pose proof (senderIteration_test_line coords tick net st nm) as Hstep.
  destruct (senderIteration coords tick net st nm) as [[st' nm'] o]. cbn [fst snd] in *.
  specialize (IH st' nm'). lia.
Qed.

Lemma senderLoop_registry coords ticks net st nm id info :
  m_nodeMap (senderLoop coords ticks net st nm).1.2 !! id = Some info →
  m_nodeMap nm !! id = Some info.
Proof.
  revert st nm. induction ticks as [| tick ticks IH]; intros st nm; [done |].
  cbn [senderLoop]. rewrite Console_bind_fst.
  pose proof (senderIteration_registry coords tick net st nm) as Hstep.
  destruct (senderIteration coords tick net st nm).1 as [st' nm']. cbn [snd] in Hstep.
  intros Hafter%IH. rewrite Hstep, pruneTimeouts_lookup in Hafter.
  destruct (m_nodeMap nm !! id) as [old |]; [| done].
  by destruct (timed_out _ _ old).
Qed.
End sender.

(** X29.  The sender thread never adds an entry to the registry and never
    changes one: whatever is stored under an id when it ends was stored
    there, unchanged, when it began.  All it does to the registry is
    prune. *)
Theorem sender_only_prunes (coords : Z → Z * Z * Z) (start : Z)
    (ticks : list sender_tick) (net : NetworkManager) (nm : NodeManager)
    (id : Z) (info : NodeInfo) :
  m_nodeMap (senderThreadFunc coords start ticks net nm).1 !! id = Some info →
  m_nodeMap nm !! id = Some info.
Proof.
  unfold senderThreadFunc. rewrite !Console_bind_fst.
  set (st := {| myPosReport := _; lastPosSendTime := start;
                sentTestTextMessage := false |}).
  pose proof (senderLoop_registry coords ticks net st nm id info) as Hloop.
  destruct (senderLoop coords ticks net st nm).1 as [st' nm']. done.
Qed.

Lemma sender_only_prunes_witness :
  let net := {| m_initialized := true; m_sendSocket := 3; m_recvSocket := 4;
                m_broadcastAddr := 0; m_port := 30000 |} in
  let tick := {| tick_now := 0;
                 tick_sendto := λ (_ : Z) (_ : list byte) (len _ : Z),
                   {| sendto_return := len; sendto_lastError := 0 |};
                 tick_prune_now := 16 * ticks_per_second;
                 tick_print_now := 16 * ticks_per_second |} in
  let nm := {| m_selfNodeId := 1;
               m_nodeMap := {[ 7 := NodeInfo_new 7 0;
                               9 := NodeInfo_new 9 (10 * ticks_per_second) ]} |} in
  m_nodeMap nm !! 9 = Some (NodeInfo_new 9 (10 * ticks_per_second)).
Proof.
  intros net tick nm.
  apply (sender_only_prunes (λ _, (0, 0, 0)) 0 [tick] net nm 9).
  vm_compute. reflexivity.
Defined.

(** X30.  However long the sender thread runs and whatever the sends
    return, it reports the test message as sent at most once. *)
Theorem test_message_is_reported_at_most_once (coords : Z → Z * Z * Z) (start : Z)
    (ticks : list sender_tick) (net : NetworkManager) (nm : NodeManager) :
  (sent_test_lines (senderThreadFunc coords start ticks net nm).2 <= 1)%nat.
Proof.
  unfold senderThreadFunc.
  rewrite !Console_bind_snd, !sent_test_lines_app.
  set (st := {| myPosReport := _; lastPosSendTime := start;
                sentTestTextMessage := false |}).
  pose proof (senderLoop_test_line coords ticks net st nm) as Hloop.
  destruct (senderLoop coords ticks net st nm) as [[st' nm'] o].
  unfold test_lines_left in Hloop. cbn [fst snd st sentTestTextMessage] in *.
  rewrite (sent_test_lines_none (print _).2) by (repeat constructor).
  rewrite (sent_test_lines_none (_;; mret nm').2) by (repeat constructor).
  lia.
Qed.
